(** * ScrollArea: geometry, ratio, wheel and visibility logic

    A shallow embedding of the scroll-synchronisation logic of
    [packages/react/scroll-area/src/ScrollArea2.tsx]: the pure geometry
    helpers ([getThumbSizePx], the two interpolations), the per-axis ratio
    effect, the wheel handler, the drag pointer-offset cell, the policy
    dispatch of [ScrollAreaScrollbar] and the transition table of
    [ScrollAreaScrollbarScroll].

    Numbers.  A JavaScript [number] is modelled by exact rationals extended
    with the three non-finite values.  Rounding of binary floating point and
    the sign of zero are not modelled: every finite operation is exact and a
    division by zero yields the infinity of the numerator's sign (or [NaN]
    for [0/0]).  Statements about finite sizes are therefore statements
    about exact arithmetic; module [Binary64] recomputes the geometry on
    doubles and two examples show where the two part.

    Effects.  Handlers return the list of what they do to the outside world
    ([preventDefault], assignments to [scrollLeft] and [scrollTop], calls of
    the ratio consumer).  An assignment is recorded with the value assigned;
    what the browser makes of it (clamping to the scroll range) is not part
    of this code. *)

From Stdlib Require Import ZArith QArith Qcanon Bool List String Ascii.
From Stdlib Require Import Field.
From Stdlib Require Import Lqa.
From Stdlib Require Import Floats.
Import ListNotations.

Local Open Scope Qc_scope.

(** ** JavaScript numbers *)

Module JS.

Inductive number : Type :=
| Fin (q : Qc)
| PosInf
| NegInf
| NaN.

Definition ofZ (z : Z) : number := Fin (Q2Qc (inject_Z z)).

Definition zero : number := Fin 0.

Definition Qcltb (a b : Qc) : bool :=
  match a ?= b with Lt => true | _ => false end.

(** [inf_of_sign a] is the infinity carrying the sign of the non-zero [a]. *)
Definition inf_of_sign (a : Qc) : number :=
  if Qcltb a 0 then NegInf else PosInf.

Definition neg (x : number) : number :=
  match x with
  | Fin a => Fin (- a)
  | PosInf => NegInf
  | NegInf => PosInf
  | NaN => NaN
  end.

(** [x + y] *)
Definition add (x y : number) : number :=
  match x, y with
  | NaN, _ | _, NaN => NaN
  | Fin a, Fin b => Fin (a + b)
  | PosInf, NegInf | NegInf, PosInf => NaN
  | PosInf, _ | _, PosInf => PosInf
  | NegInf, _ | _, NegInf => NegInf
  end.

(** [x - y] *)
Definition sub (x y : number) : number := add x (neg y).

(** [x * y] *)
Definition mul (x y : number) : number :=
  match x, y with
  | NaN, _ | _, NaN => NaN
  | Fin a, Fin b => Fin (a * b)
  | Fin a, PosInf | PosInf, Fin a =>
      if Qc_eq_bool a 0 then NaN else inf_of_sign a
  | Fin a, NegInf | NegInf, Fin a =>
      if Qc_eq_bool a 0 then NaN else neg (inf_of_sign a)
  | PosInf, PosInf | NegInf, NegInf => PosInf
  | PosInf, NegInf | NegInf, PosInf => NegInf
  end.

(** [x / y]: a zero divisor does not raise, it yields an infinity or [NaN]. *)
Definition div (x y : number) : number :=
  match x, y with
  | NaN, _ | _, NaN => NaN
  | Fin a, Fin b =>
      if Qc_eq_bool b 0
      then (if Qc_eq_bool a 0 then NaN else inf_of_sign a)
      else Fin (a / b)
  | Fin _, (PosInf | NegInf) => Fin 0
  | PosInf, Fin b => if Qcltb b 0 then NegInf else PosInf
  | NegInf, Fin b => if Qcltb b 0 then PosInf else NegInf
  | (PosInf | NegInf), (PosInf | NegInf) => NaN
  end.

(** [x < y]; any comparison with [NaN] is false. *)
Definition lt (x y : number) : bool :=
  match x, y with
  | NaN, _ | _, NaN => false
  | Fin a, Fin b => Qcltb a b
  | NegInf, (Fin _ | PosInf) => true
  | Fin _, PosInf => true
  | _, _ => false
  end.

(** [x > y] *)
Definition gt (x y : number) : bool := lt y x.

(** [x === y]; [NaN] is not equal to itself. *)
Definition strict_eq (x y : number) : bool :=
  match x, y with
  | Fin a, Fin b => Qc_eq_bool a b
  | PosInf, PosInf | NegInf, NegInf => true
  | _, _ => false
  end.

(** [x <= y] *)
Definition le (x y : number) : bool := lt x y || strict_eq x y.

(** Truthiness of a number: [0] and [NaN] are falsy. *)
Definition truthy (x : number) : bool :=
  match x with
  | Fin a => negb (Qc_eq_bool a 0)
  | NaN => false
  | _ => true
  end.

(** [x || y] on numbers. *)
Definition or_else (x y : number) : number := if truthy x then x else y.

(** [Math.max(x, y)], used on the specification side only. *)
Definition max (x y : number) : number :=
  match x, y with
  | NaN, _ | _, NaN => NaN
  | _, _ => if lt x y then y else x
  end.

Definition is_finite (x : number) : bool :=
  match x with Fin _ => true | _ => false end.

End JS.

Import JS.

Declare Scope js_scope.
Delimit Scope js_scope with js.
Bind Scope js_scope with number.
Infix "+" := add : js_scope.
Infix "-" := sub : js_scope.
Infix "*" := mul : js_scope.
Infix "/" := div : js_scope.

(** ** Strings to numbers *)

(** ASCII white space skipped by [parseInt]. *)
Definition isWhite (c : ascii) : bool :=
  let n := N_of_ascii c in
  ((n =? 32) || ((9 <=? n) && (n <=? 13)))%N.

Fixpoint skipWhite (s : string) : string :=
  match s with
  | String c r => if isWhite c then skipWhite r else s
  | EmptyString => s
  end.

Definition digitOf (c : ascii) : option Z :=
  let n := Z.of_N (N_of_ascii c) in
  if ((48 <=? n) && (n <=? 57))%Z then Some (n - 48)%Z else None.

(** Longest prefix of decimal digits; [None] when there is no digit. *)
Fixpoint digits (acc : option Z) (s : string) : option Z :=
  match s with
  | String c r =>
      match digitOf c with
      | Some d =>
          digits (Some (10 * (match acc with Some a => a | None => 0 end) + d)%Z) r
      | None => acc
      end
  | EmptyString => acc
  end.

(** [parseInt(s, 10)]: optional white space, optional sign, decimal digits,
    anything after them ignored; [NaN] when no digit is found. *)
Definition parseInt10 (s : string) : number :=
  let s := skipWhite s in
  let '(sign, s) :=
    match s with
    | String "-"%char r => ((-1)%Z, r)
    | String "+"%char r => (1%Z, r)
    | _ => (1%Z, s)
    end in
  match digits None s with
  | Some n => ofZ (sign * n)
  | None => NaN
  end.

(** [function toInt(value?: string) { return value ? parseInt(value, 10) : 0; }] *)
Definition toInt (value : option string) : number :=
  match value with
  | Some EmptyString | None => zero
  | Some s => parseInt10 s
  end.

(** ** Data model *)

(** [Sizes['scrollbar']] *)
Record ScrollbarSizes : Type := {
  size : number;
  paddingStart : number;
  paddingEnd : number
}.

(** [type Sizes] *)
Record Sizes : Type := {
  thumb : number;
  content : number;
  viewport : number;
  scrollbar : ScrollbarSizes
}.

(** [Omit<Sizes, 'thumb'>] *)
Record SizesOmitThumb : Type := {
  o_content : number;
  o_viewport : number;
  o_scrollbar : ScrollbarSizes
}.

(** [{ ...sizes, thumb: thumbSizePx }] *)
Definition withThumb (sizes : SizesOmitThumb) (thumbSizePx : number) : Sizes :=
  {| thumb := thumbSizePx;
     content := o_content sizes;
     viewport := o_viewport sizes;
     scrollbar := o_scrollbar sizes |}.

(** The properties of the viewport [HTMLDivElement] that the code reads. *)
Record HTMLDivElement : Type := {
  scrollLeft : number;
  scrollTop : number;
  scrollWidth : number;
  scrollHeight : number;
  offsetWidth : number;
  offsetHeight : number
}.

(** The properties of a [CSSStyleDeclaration] that the code reads. *)
Record CSSStyleDeclaration : Type := {
  width : string;
  height : string;
  paddingLeft : string;
  paddingRight : string;
  paddingTop : string;
  paddingBottom : string
}.

(** The scrollbar element: its client box and what [getComputedStyle]
    returns for it. *)
Record ScrollbarElement : Type := {
  clientWidth : number;
  clientHeight : number;
  getComputedStyle : CSSStyleDeclaration
}.

(** The part of [ScrollAreaContextValue] used below; [None] is [null]. *)
Record ScrollAreaContextValue : Type := {
  ctx_type : string;
  ctx_scrollHideDelay : number;
  ctx_viewport : option HTMLDivElement;
  ctx_scrollbarX : option ScrollbarElement;
  ctx_scrollbarY : option ScrollbarElement
}.

(** [{ x: number; y: number }] *)
Record Point : Type := { x : number; y : number }.

(** [WheelEvent]: the two deltas read by the handlers. *)
Record WheelEvent : Type := { deltaX : number; deltaY : number }.

(** What a handler does to the outside world, in program order. *)
Inductive effect : Type :=
| PreventDefault
| SetScrollLeft (v : number)
| SetScrollTop (v : number)
| ThumbRatioChange (ratio : number)
| SetComputedStyle (cs : CSSStyleDeclaration).

Inductive orientation : Type := horizontal | vertical.

(** ** Geometry *)

(** Modelled from the spec: [linearScale] is imported from
    [@radix-ui/number], whose source is not part of the files at hand.
    Section 4.1 describes it as the single linear-interpolation primitive
    mapping [[domainMin, domainMax]] onto [[codomainMin, codomainMax]] that
    never divides by zero: a degenerate interval (one whose two ends
    coincide) maps everything to the codomain's starting point. *)
Definition linearScale (input output : number * number) (value : number) : number :=
  let '(i0, i1) := input in
  let '(o0, o1) := output in
  if strict_eq i0 i1 || strict_eq o0 o1 then o0
  else
    let ratio := ((o1 - o0) / (i1 - i0))%js in
    (o0 + ratio * (value - i0))%js.

(** [getThumbSizePx] *)
Definition getThumbSizePx (ratio : number) (scrollbar : ScrollbarSizes) : number :=
  let scrollbarPadding := (paddingStart scrollbar + paddingEnd scrollbar)%js in
  ((size scrollbar - scrollbarPadding) * ratio)%js.

(** [interpolateScrollPositionFromPointer] *)
Definition interpolateScrollPositionFromPointer
    (pointerPos pointerOffset : number) (sizes : Sizes) : number :=
  let thumbOffsetFromEnd := (thumb sizes - pointerOffset)%js in
  let minPointerPos := (paddingStart (scrollbar sizes) + pointerOffset)%js in
  let maxPointerPos :=
    (size (scrollbar sizes) - paddingEnd (scrollbar sizes) - thumbOffsetFromEnd)%js in
  let maxScrollPos := (content sizes - viewport sizes)%js in
  let interpolate := linearScale (minPointerPos, maxPointerPos) (zero, maxScrollPos) in
  interpolate pointerPos.

(** [interpolateThumbOffsetFromScroll] *)
Definition interpolateThumbOffsetFromScroll (scrollPos : number) (sizes : Sizes) : number :=
  let scrollbarPadding :=
    (paddingStart (scrollbar sizes) + paddingEnd (scrollbar sizes))%js in
  let scrollbar := (size (scrollbar sizes) - scrollbarPadding)%js in
  let maxScrollPos := (content sizes - viewport sizes)%js in
  let maxThumbPos := (scrollbar - thumb sizes)%js in
  let interpolate := linearScale (zero, maxScrollPos) (zero, maxThumbPos) in
  interpolate scrollPos.

(** ** ScrollArea and the policy dispatch *)

(** The four components [ScrollAreaScrollbar] can render. *)
Inductive ScrollbarComponent : Type :=
| ScrollAreaScrollbarVisible
| ScrollAreaScrollbarAuto
| ScrollAreaScrollbarHover
| ScrollAreaScrollbarScroll.

(** [const { type = 'hover', ... } = props]: the default applies when the
    property is [undefined] ([None]); any value given is passed on as is. *)
Definition ScrollArea_type (props_type : option string) : string :=
  match props_type with
  | Some t => t
  | None => "hover"
  end.

(** The conditional chain returned by [ScrollAreaScrollbar]; [None] is the
    final [null]. *)
Definition ScrollAreaScrollbar (context_type : string) : option ScrollbarComponent :=
  if String.eqb context_type "always" then Some ScrollAreaScrollbarVisible
  else if String.eqb context_type "auto" then Some ScrollAreaScrollbarAuto
  else if String.eqb context_type "hover" then Some ScrollAreaScrollbarHover
  else if String.eqb context_type "scroll" then Some ScrollAreaScrollbarScroll
  else None.

(** ** The activity state machine of [ScrollAreaScrollbarScroll] *)

Inductive state : Type := idle | hidden | scrolling | interacting.

Inductive event : Type :=
| HIDE
| SCROLL
| SCROLL_END
| SCROLLBAR_POINTER_ENTER
| SCROLLBAR_POINTER_LEAVE.

(** First argument of [useStateMachine]. *)
Definition initialState : state := hidden.

(** Second argument of [useStateMachine]: the table, entry by entry;
    [None] where the object has no such key. *)
Definition machine (s : state) (e : event) : option state :=
  match s, e with
  | idle, HIDE => Some hidden
  | idle, SCROLL => Some scrolling
  | idle, SCROLLBAR_POINTER_ENTER => Some interacting
  | hidden, SCROLL => Some scrolling
  | hidden, SCROLLBAR_POINTER_ENTER => Some interacting
  | scrolling, SCROLL_END => Some idle
  | scrolling, SCROLLBAR_POINTER_ENTER => Some interacting
  | interacting, SCROLL => Some interacting
  | interacting, SCROLLBAR_POINTER_LEAVE => Some idle
  | _, _ => None
  end.

(** Modelled from the spec: [useStateMachine] comes from
    [./useStateMachine], whose source is not part of the files at hand.
    Section 4.4 gives the machine as an initial state and a list of labelled
    transitions; an event for which the current state lists no transition
    leaves the state where it is. *)
Definition send (table : state -> event -> option state) (s : state) (e : event) : state :=
  match table s e with
  | Some s' => s'
  | None => s
  end.

Definition run (table : state -> event -> option state) (s : state) (es : list event) : state :=
  fold_left (send table) es s.

(** [present={forceMount || state !== 'hidden'}] *)
Definition ScrollAreaScrollbarScroll_present (forceMount : bool) (s : state) : bool :=
  forceMount || match s with hidden => false | _ => true end.

(** ** ScrollAreaScrollbarVisible *)

(** The cells of one [ScrollAreaScrollbarVisible] instance that the
    geometry reads: the [pointerOffsetRef] ref and the [thumbRatio] state. *)
Record VisibleState : Type := {
  pointerOffsetRef : number;
  thumbRatio : number
}.

(** [React.useRef(0)] and [React.useState(0)] *)
Definition VisibleState_init : VisibleState :=
  {| pointerOffsetRef := zero; thumbRatio := zero |}.

(** [const thumbSizePct = thumbRatio * 100] *)
Definition thumbSizePct (st : VisibleState) : number :=
  (thumbRatio st * ofZ 100)%js.

(** [onThumbRatioChange={setThumbRatio}] *)
Definition setThumbRatio (ratio : number) (st : VisibleState) : VisibleState :=
  {| pointerOffsetRef := pointerOffsetRef st; thumbRatio := ratio |}.

(** [getScrollPositionFromPointer] *)
Definition getScrollPositionFromPointer
    (st : VisibleState) (pointerPos : number) (sizes : SizesOmitThumb) : number :=
  let thumbSizePx := getThumbSizePx (thumbRatio st) (o_scrollbar sizes) in
  let pointerOffset := or_else (pointerOffsetRef st) (thumbSizePx / ofZ 2)%js in
  interpolateScrollPositionFromPointer pointerPos pointerOffset (withThumb sizes thumbSizePx).

(** [getThumbOffsetFromScroll] *)
Definition getThumbOffsetFromScroll
    (st : VisibleState) (scrollPos : number) (sizes : SizesOmitThumb) : number :=
  let thumbSizePx := getThumbSizePx (thumbRatio st) (o_scrollbar sizes) in
  interpolateThumbOffsetFromScroll scrollPos (withThumb sizes thumbSizePx).

(** [preventPageScrollOnWheel] *)
Definition preventPageScrollOnWheel (scrollPos maxScrollPos : number) : list effect :=
  let isScrollingScrollbar := gt scrollPos zero && lt scrollPos maxScrollPos in
  if isScrollingScrollbar then [PreventDefault] else [].

(** [onThumbPointerDown={(pointerPos) => (pointerOffsetRef.current = pointerPos.x)}]
    and its vertical twin. *)
Definition onThumbPointerDown (o : orientation) (pointerPos : Point) (st : VisibleState)
  : VisibleState :=
  {| pointerOffsetRef := match o with horizontal => x pointerPos | vertical => y pointerPos end;
     thumbRatio := thumbRatio st |}.

(** [onThumbPointerUp={() => (pointerOffsetRef.current = 0)}] *)
Definition onThumbPointerUp (st : VisibleState) : VisibleState :=
  {| pointerOffsetRef := zero; thumbRatio := thumbRatio st |}.

(** [onWheelScroll] as [ScrollAreaScrollbarVisible] passes it down. *)
Definition Visible_onWheelScroll (o : orientation) (context : ScrollAreaContextValue)
    (scrollPos maxScrollPos : number) : list effect :=
  preventPageScrollOnWheel scrollPos maxScrollPos ++
  match ctx_viewport context with
  | Some _ =>
      match o with
      | horizontal => [SetScrollLeft scrollPos]
      | vertical => [SetScrollTop scrollPos]
      end
  | None => []
  end.

(** [onDragScroll] as [ScrollAreaScrollbarVisible] passes it down. *)
Definition Visible_onDragScroll (o : orientation) (context : ScrollAreaContextValue)
    (st : VisibleState) (pointerPos : number) (sizes : SizesOmitThumb) : list effect :=
  let scrollPos := getScrollPositionFromPointer st pointerPos sizes in
  match ctx_viewport context with
  | Some _ =>
      match o with
      | horizontal => [SetScrollLeft scrollPos]
      | vertical => [SetScrollTop scrollPos]
      end
  | None => []
  end.

(** ** ScrollAreaScrollbarX and ScrollAreaScrollbarY *)

(** [x?.f || 0] on an element that may be [null]. *)
Definition orZero {A : Type} (element : option A) (f : A -> number) : number :=
  match element with
  | Some e => or_else (f e) zero
  | None => zero
  end.

(** [computedStyle?.f] handed to [toInt]. *)
Definition styleField (computedStyle : option CSSStyleDeclaration)
    (f : CSSStyleDeclaration -> string) : option string :=
  option_map f computedStyle.

(** [getScrollbarSizes] of [ScrollAreaScrollbarX]; [computedStyle] is the
    component's state cell. *)
Definition X_getScrollbarSizes (context : ScrollAreaContextValue)
    (computedStyle : option CSSStyleDeclaration) : ScrollbarSizes :=
  {| size := orZero (ctx_scrollbarX context) clientWidth;
     paddingStart := toInt (styleField computedStyle paddingLeft);
     paddingEnd := toInt (styleField computedStyle paddingRight) |}.

(** [getScrollbarSizes] of [ScrollAreaScrollbarY]. *)
Definition Y_getScrollbarSizes (context : ScrollAreaContextValue)
    (computedStyle : option CSSStyleDeclaration) : ScrollbarSizes :=
  {| size := orZero (ctx_scrollbarY context) clientHeight;
     paddingStart := toInt (styleField computedStyle paddingTop);
     paddingEnd := toInt (styleField computedStyle paddingBottom) |}.

(** [const contentWidth = context.viewport?.scrollWidth || 0] *)
Definition contentWidth (context : ScrollAreaContextValue) : number :=
  orZero (ctx_viewport context) scrollWidth.

(** [const contentHeight = context.viewport?.scrollHeight || 0] *)
Definition contentHeight (context : ScrollAreaContextValue) : number :=
  orZero (ctx_viewport context) scrollHeight.

(** Body of the layout effect of [ScrollAreaScrollbarX]. *)
Definition X_ratioEffect (context : ScrollAreaContextValue) : list effect :=
  match ctx_scrollbarX context with
  | Some scrollbar =>
      let computedStyle := getComputedStyle scrollbar in
      let scrollbarWidth := toInt (Some (width computedStyle)) in
      [ThumbRatioChange (scrollbarWidth / contentWidth context)%js;
       SetComputedStyle computedStyle]
  | None => []
  end.

(** Body of the layout effect of [ScrollAreaScrollbarY]. *)
Definition Y_ratioEffect (context : ScrollAreaContextValue) : list effect :=
  match ctx_scrollbarY context with
  | Some scrollbar =>
      let computedStyle := getComputedStyle scrollbar in
      let scrollbarHeight := toInt (Some (height computedStyle)) in
      [ThumbRatioChange (scrollbarHeight / contentHeight context)%js;
       SetComputedStyle computedStyle]
  | None => []
  end.

Definition ratioEffect (o : orientation) : ScrollAreaContextValue -> list effect :=
  match o with horizontal => X_ratioEffect | vertical => Y_ratioEffect end.

(** [onWheelScroll] handed by [ScrollAreaScrollbarX] to the implementation,
    with [props.onWheelScroll] being the one of [ScrollAreaScrollbarVisible]. *)
Definition X_onWheelScroll (context : ScrollAreaContextValue) (ev : WheelEvent)
  : list effect :=
  match ctx_viewport context with
  | Some vp =>
      let scrollPos := (scrollLeft vp + deltaX ev)%js in
      let maxScrollPos := (scrollWidth vp - offsetWidth vp)%js in
      Visible_onWheelScroll horizontal context scrollPos maxScrollPos
  | None => []
  end.

(** The same for [ScrollAreaScrollbarY]. *)
Definition Y_onWheelScroll (context : ScrollAreaContextValue) (ev : WheelEvent)
  : list effect :=
  match ctx_viewport context with
  | Some vp =>
      let scrollPos := (scrollTop vp + deltaY ev)%js in
      let maxScrollPos := (scrollHeight vp - offsetHeight vp)%js in
      Visible_onWheelScroll vertical context scrollPos maxScrollPos
  | None => []
  end.

Definition onWheelScroll (o : orientation)
  : ScrollAreaContextValue -> WheelEvent -> list effect :=
  match o with horizontal => X_onWheelScroll | vertical => Y_onWheelScroll end.

(** [onDragScroll] handed by [ScrollAreaScrollbarX] to the implementation. *)
Definition X_onDragScroll (context : ScrollAreaContextValue)
    (computedStyle : option CSSStyleDeclaration) (st : VisibleState)
    (pointerPosition : Point) : list effect :=
  match ctx_viewport context with
  | Some vp =>
      Visible_onDragScroll horizontal context st (x pointerPosition)
        {| o_content := scrollWidth vp;
           o_viewport := offsetWidth vp;
           o_scrollbar := X_getScrollbarSizes context computedStyle |}
  | None => []
  end.

(** The same for [ScrollAreaScrollbarY]. *)
Definition Y_onDragScroll (context : ScrollAreaContextValue)
    (computedStyle : option CSSStyleDeclaration) (st : VisibleState)
    (pointerPosition : Point) : list effect :=
  match ctx_viewport context with
  | Some vp =>
      Visible_onDragScroll vertical context st (y pointerPosition)
        {| o_content := scrollHeight vp;
           o_viewport := offsetHeight vp;
           o_scrollbar := Y_getScrollbarSizes context computedStyle |}
  | None => []
  end.

(** ** ScrollAreaScrollbarImpl and ScrollAreaThumb *)

(** [handleWheel]: [isScrollbarWheel] is the outcome of
    [scrollbar?.contains(element)], [false] for [undefined]. *)
Definition handleWheel (o : orientation) (context : ScrollAreaContextValue)
    (isScrollbarWheel : bool) (ev : WheelEvent) : list effect :=
  if isScrollbarWheel then onWheelScroll o context ev else [].

(** [onPointerDownCapture] of the thumb: the pointer position relative to
    the thumb's top left corner, handed to [onThumbPointerDown]. *)
Definition Thumb_onPointerDownCapture (o : orientation)
    (clientX clientY thumbRect_left thumbRect_top : number) (st : VisibleState)
  : VisibleState :=
  let x := (clientX - thumbRect_left)%js in
  let y := (clientY - thumbRect_top)%js in
  onThumbPointerDown o {| x := x; y := y |} st.

(** Effects applied to the cells of [ScrollAreaScrollbarVisible]. *)
Definition applyEffect (st : VisibleState) (e : effect) : VisibleState :=
  match e with
  | ThumbRatioChange r => setThumbRatio r st
  | _ => st
  end.

(** ** ScrollAreaScrollbar: the axis a scrollbar enables *)

(** [props.orientation === 'horizontal']; [None] is an absent property. *)
Definition isHorizontal (props_orientation : option string) : bool :=
  match props_orientation with
  | Some o => String.eqb o "horizontal"
  | None => false
  end.

(** The two [useState(false)] cells of [ScrollArea] that decide
    [overflowX] and [overflowY] of the viewport. *)
Record EnabledState : Type := {
  isScrollbarXEnabled : bool;
  isScrollbarYEnabled : bool
}.

(** The effect of [ScrollAreaScrollbar] ([rendered = true]) and its cleanup
    ([rendered = false]):
    [isHorizontal ? onScrollbarXEnabledChange(r) : onScrollbarYEnabledChange(r)]. *)
Definition ScrollAreaScrollbar_enable (props_orientation : option string) (rendered : bool)
    (st : EnabledState) : EnabledState :=
  if isHorizontal props_orientation
  then {| isScrollbarXEnabled := rendered; isScrollbarYEnabled := isScrollbarYEnabled st |}
  else {| isScrollbarXEnabled := isScrollbarXEnabled st; isScrollbarYEnabled := rendered |}.

(** [overflowX: isScrollbarXEnabled ? 'scroll' : 'hidden'], and the same for Y. *)
Definition overflowOf (enabled : bool) : string :=
  if enabled then "scroll" else "hidden".

(** The axis component [ScrollAreaScrollbarVisible] returns:
    [const { orientation = 'vertical' } = props], then the two tests, then
    [null]. *)
Definition ScrollAreaScrollbarVisible_axis (props_orientation : option string)
  : option orientation :=
  let orientation :=
    match props_orientation with Some o => o | None => "vertical"%string end in
  if String.eqb orientation "horizontal" then Some horizontal
  else if String.eqb orientation "vertical" then Some vertical
  else None.

(** ** ScrollAreaScrollbarAuto *)

(** The resize callback of [ScrollAreaScrollbarAuto]: the value of the
    [visible] cell after it ran. *)
Definition Auto_onResize (props_orientation : option string)
    (context : ScrollAreaContextValue) (visible : bool) : bool :=
  match ctx_viewport context with
  | Some vp =>
      let isOverflowX := lt (offsetWidth vp) (scrollWidth vp) in
      let isOverflowY := lt (offsetHeight vp) (scrollHeight vp) in
      let isAuto := if isHorizontal props_orientation then isOverflowX else isOverflowY in
      isAuto
  | None => visible
  end.

(** [<Presence present={forceMount || visible}>] *)
Definition present (forceMount visible : bool) : bool := forceMount || visible.

(** ** ScrollAreaScrollbarHover *)

(** The two closures one run of the effect creates; [run] tells the
    closures of different runs apart. *)
Inductive handler : Type :=
| handlePointerEnter (run : nat)
| handlePointerLeave (run : nat).

Definition handler_eqb (h k : handler) : bool :=
  match h, k with
  | handlePointerEnter m, handlePointerEnter n => Nat.eqb m n
  | handlePointerLeave m, handlePointerLeave n => Nat.eqb m n
  | _, _ => false
  end.

(** The listener list of an element: event type and callback. *)
Definition EventTarget : Type := list (string * handler).

Definition listener_eqb (a b : string * handler) : bool :=
  String.eqb (fst a) (fst b) && handler_eqb (snd a) (snd b).

(** [addEventListener]: appended unless the same type and callback are
    already registered. *)
Definition addEventListener (type : string) (h : handler) (t : EventTarget) : EventTarget :=
  if existsb (listener_eqb (type, h)) t then t else t ++ [(type, h)].

(** [removeEventListener]: the listener of that type and callback, if any,
    is dropped. *)
Definition removeEventListener (type : string) (h : handler) (t : EventTarget) : EventTarget :=
  filter (fun l => negb (listener_eqb (type, h) l)) t.

(** The body of the effect of [ScrollAreaScrollbarHover] on the scroll area
    element; nothing is registered unless viewport and scroll area exist. *)
Definition Hover_effect (context : ScrollAreaContextValue) (scrollArea : option EventTarget)
    (run : nat) : option EventTarget :=
  match ctx_viewport context, scrollArea with
  | Some _, Some t =>
      Some (addEventListener "pointerleave" (handlePointerLeave run)
              (addEventListener "pointerenter" (handlePointerEnter run) t))
  | _, _ => None
  end.

(** The cleanup that run returns. *)
Definition Hover_cleanup (run : nat) (t : EventTarget) : EventTarget :=
  removeEventListener "pointerleave" (handlePointerLeave run)
    (removeEventListener "mouseover" (handlePointerEnter run) t).

(** The callbacks an event of the given type reaches, in order. *)
Definition listenersFor (type : string) (t : EventTarget) : list handler :=
  map snd (filter (fun l => String.eqb (fst l) type) t).

(** One re-run of the effect with both elements present: the cleanup of
    run [n], then the body of run [n + 1]. *)
Definition Hover_rerun (n : nat) (t : EventTarget) : EventTarget :=
  addEventListener "pointerleave" (handlePointerLeave (S n))
    (addEventListener "pointerenter" (handlePointerEnter (S n))
       (Hover_cleanup n t)).

(** The scroll area's listeners after run 0 and [n] re-runs. *)
Fixpoint Hover_after (n : nat) : EventTarget :=
  match n with
  | O => addEventListener "pointerleave" (handlePointerLeave 0)
           (addEventListener "pointerenter" (handlePointerEnter 0) [])
  | S m => Hover_rerun m (Hover_after m)
  end.

(** ** ScrollAreaScrollbarScroll: the scroll listener *)

(** What [handleScroll] does besides updating [prevScrollPos]. *)
Inductive scrollAction : Type :=
| Send (e : event)
| DebounceScrollEnd.

(** [viewport[scrollDirection]] *)
Definition scrollDirection (props_orientation : option string) (vp : HTMLDivElement) : number :=
  if isHorizontal props_orientation then scrollLeft vp else scrollTop vp.

(** [handleScroll]: the actions taken and the new [prevScrollPos]. *)
Definition handleScroll (props_orientation : option string) (vp : HTMLDivElement)
    (prevScrollPos : number) : list scrollAction * number :=
  let scrollPos := scrollDirection props_orientation vp in
  (if negb (strict_eq prevScrollPos scrollPos) then [Send SCROLL; DebounceScrollEnd] else [],
   scrollPos).

(** The machine state after the [send] calls among the actions. *)
Definition applyActions (s : state) (actions : list scrollAction) : state :=
  fold_left (fun s a => match a with Send e => send machine s e | DebounceScrollEnd => s end)
    actions s.

(** ** ScrollAreaScrollbarImpl: pointer handling *)

(** The handlers below are the ones the component composes behind the
    consumer's own ([composeEventHandlers]); they are modelled as running,
    that is, with no consumer handler preventing the default. *)

(** The two coordinates of a [ClientRect] that the code reads. *)
Record ClientRect : Type := { rect_left : number; rect_top : number }.

(** The properties of a [PointerEvent] that the code reads. *)
Record PointerEvent : Type := {
  button : Z;
  pointerId : Z;
  clientX : number;
  clientY : number
}.

Definition MAIN_POINTER : Z := 0.

(** What the pointer handlers of [ScrollAreaScrollbarImpl] do, the call of
    [onDragScroll] included. *)
Inductive implEffect : Type :=
| SetPointerCapture (id : Z)
| ReleasePointerCapture (id : Z)
| DragScroll (pointerPosition : Point).

(** [handleDragScroll] *)
Definition handleDragScroll (rectRef : option ClientRect) (ev : PointerEvent)
  : list implEffect :=
  match rectRef with
  | Some rect =>
      let x := (clientX ev - rect_left rect)%js in
      let y := (clientY ev - rect_top rect)%js in
      [DragScroll {| x := x; y := y |}]
  | None => []
  end.

(** [onPointerDown]; [boundingClientRect] is what
    [scrollbar.getBoundingClientRect()] returns at that moment.  The result
    is the new content of [rectRef] and the effects. *)
Definition Impl_onPointerDown (boundingClientRect : ClientRect)
    (rectRef : option ClientRect) (ev : PointerEvent)
  : option ClientRect * list implEffect :=
  if (button ev =? MAIN_POINTER)%Z
  then (Some boundingClientRect,
        SetPointerCapture (pointerId ev) :: handleDragScroll (Some boundingClientRect) ev)
  else (rectRef, []).

(** [onPointerMove] *)
Definition Impl_onPointerMove (rectRef : option ClientRect) (ev : PointerEvent)
  : option ClientRect * list implEffect :=
  (rectRef, handleDragScroll rectRef ev).

(** [onPointerUp] *)
Definition Impl_onPointerUp (rectRef : option ClientRect) (ev : PointerEvent)
  : option ClientRect * list implEffect :=
  (None, [ReleasePointerCapture (pointerId ev)]).

(** A pointer event reaching the scrollbar element. *)
Inductive pointerInput : Type :=
| PointerDown (boundingClientRect : ClientRect) (ev : PointerEvent)
| PointerMove (ev : PointerEvent)
| PointerUp (ev : PointerEvent).

Definition Impl_step (rectRef : option ClientRect) (i : pointerInput)
  : option ClientRect * list implEffect :=
  match i with
  | PointerDown r ev => Impl_onPointerDown r rectRef ev
  | PointerMove ev => Impl_onPointerMove rectRef ev
  | PointerUp ev => Impl_onPointerUp rectRef ev
  end.

(** The handlers run on a sequence of events: the final [rectRef] and all
    effects, in order. *)
Fixpoint Impl_run (rectRef : option ClientRect) (inputs : list pointerInput)
  : option ClientRect * list implEffect :=
  match inputs with
  | [] => (rectRef, [])
  | i :: rest =>
      let '(rectRef', effects) := Impl_step rectRef i in
      let '(final, more) := Impl_run rectRef' rest in
      (final, effects ++ more)
  end.

(** ** The thumb position *)

(** [thumb.style.transform = `translate3d(${x}px, ${y}px, 0)`] *)
Inductive thumbEffect : Type :=
| SetTransform (x y : number).

(** [onThumbPositionChange] as [ScrollAreaScrollbarVisible] passes it down;
    [thumb] tells whether the thumb element is there. *)
Definition Visible_onThumbPositionChange (o : orientation) (st : VisibleState)
    (thumb : bool) (scrollPos : number) (sizes : SizesOmitThumb) : list thumbEffect :=
  let offset := getThumbOffsetFromScroll st scrollPos sizes in
  if thumb
  then match o with
       | horizontal => [SetTransform offset zero]
       | vertical => [SetTransform zero offset]
       end
  else [].

(** [onThumbPositionChange] of [ScrollAreaScrollbarX]. *)
Definition X_onThumbPositionChange (context : ScrollAreaContextValue)
    (computedStyle : option CSSStyleDeclaration) (st : VisibleState) (thumb : bool)
  : list thumbEffect :=
  match ctx_viewport context with
  | Some vp =>
      Visible_onThumbPositionChange horizontal st thumb (scrollLeft vp)
        {| o_content := scrollWidth vp;
           o_viewport := offsetWidth vp;
           o_scrollbar := X_getScrollbarSizes context computedStyle |}
  | None => []
  end.

(** [onThumbPositionChange] of [ScrollAreaScrollbarY]. *)
Definition Y_onThumbPositionChange (context : ScrollAreaContextValue)
    (computedStyle : option CSSStyleDeclaration) (st : VisibleState) (thumb : bool)
  : list thumbEffect :=
  match ctx_viewport context with
  | Some vp =>
      Visible_onThumbPositionChange vertical st thumb (scrollTop vp)
        {| o_content := scrollHeight vp;
           o_viewport := offsetHeight vp;
           o_scrollbar := Y_getScrollbarSizes context computedStyle |}
  | None => []
  end.

(** ** The geometry on IEEE doubles *)

(** The same three functions computed on binary64 numbers, as the
    language computes them.  They serve to locate where the exact arithmetic
    used above and the doubles of the program part. *)
Module Binary64.

Local Open Scope float_scope.

Record ScrollbarSizes : Type := {
  size : float;
  paddingStart : float;
  paddingEnd : float
}.

Record Sizes : Type := {
  thumb : float;
  content : float;
  viewport : float;
  scrollbar : ScrollbarSizes
}.

(** Modelled from the spec: [linearScale] of [@radix-ui/number], whose
    source is not part of the files at hand; the linear interpolation of
    section 4.1 with its guard against a zero-width interval, on doubles. *)
Definition linearScale (input output : float * float) (value : float) : float :=
  let '(i0, i1) := input in
  let '(o0, o1) := output in
  if orb (i0 =? i1) (o0 =? o1) then o0
  else
    let ratio := (o1 - o0) / (i1 - i0) in
    o0 + ratio * (value - i0).

(** [getThumbSizePx] *)
Definition getThumbSizePx (ratio : float) (scrollbar : ScrollbarSizes) : float :=
  let scrollbarPadding := paddingStart scrollbar + paddingEnd scrollbar in
  (size scrollbar - scrollbarPadding) * ratio.

(** [minPointerPos] and [maxPointerPos] of
    [interpolateScrollPositionFromPointer]. *)
Definition pointerRange (pointerOffset : float) (sizes : Sizes) : float * float :=
  let thumbOffsetFromEnd := thumb sizes - pointerOffset in
  let minPointerPos := paddingStart (scrollbar sizes) + pointerOffset in
  let maxPointerPos :=
    size (scrollbar sizes) - paddingEnd (scrollbar sizes) - thumbOffsetFromEnd in
  (minPointerPos, maxPointerPos).

(** [interpolateScrollPositionFromPointer] *)
Definition interpolateScrollPositionFromPointer
    (pointerPos pointerOffset : float) (sizes : Sizes) : float :=
  let maxScrollPos := content sizes - viewport sizes in
  let interpolate := linearScale (pointerRange pointerOffset sizes) (0, maxScrollPos) in
  interpolate pointerPos.

(** [maxThumbPos] of [interpolateThumbOffsetFromScroll]. *)
Definition maxThumbPos (sizes : Sizes) : float :=
  let scrollbarPadding := paddingStart (scrollbar sizes) + paddingEnd (scrollbar sizes) in
  let scrollbar := size (scrollbar sizes) - scrollbarPadding in
  scrollbar - thumb sizes.

(** [interpolateThumbOffsetFromScroll] *)
Definition interpolateThumbOffsetFromScroll (scrollPos : float) (sizes : Sizes) : float :=
  let maxScrollPos := content sizes - viewport sizes in
  let interpolate := linearScale (0, maxScrollPos) (0, maxThumbPos sizes) in
  interpolate scrollPos.

Definition thumbOffsetFromPointer (pointerPos pointerOffset : float) (sizes : Sizes) : float :=
  interpolateThumbOffsetFromScroll
    (interpolateScrollPositionFromPointer pointerPos pointerOffset sizes) sizes.

(** Content 457, viewport 300, track 300 without padding, the thumb sized
    by the ratio [300 / 457]. *)
Definition sizes_457_300 : Sizes :=
  let track := {| size := 300; paddingStart := 0; paddingEnd := 0 |} in
  {| thumb := getThumbSizePx (300 / 457) track;
     content := 457; viewport := 300; scrollbar := track |}.

(** A thumb of 999.6999999999999 on a track of 1000 with paddings 0.1 and
    0.2 (the doubles nearest to these), which leaves about 1e-13 of room. *)
Definition sizes_narrow : Sizes :=
  {| thumb := 0x1.f3d9999999999p+9; content := 1000; viewport := 400;
     scrollbar := {| size := 1000; paddingStart := 0x1.999999999999ap-4;
                     paddingEnd := 0x1.999999999999ap-3 |} |}.

End Binary64.

(** ** Vocabulary of the statements and concrete inputs *)

(** The transitions as section 4.4 lists them. *)
Inductive spec_transition : state -> event -> state -> Prop :=
| T_hide : spec_transition idle HIDE hidden
| T_scroll_idle : spec_transition idle SCROLL scrolling
| T_scroll_hidden : spec_transition hidden SCROLL scrolling
| T_scroll_end : spec_transition scrolling SCROLL_END idle
| T_pointer_enter (s : state) : spec_transition s SCROLLBAR_POINTER_ENTER interacting
| T_scroll_interacting : spec_transition interacting SCROLL interacting
| T_pointer_leave : spec_transition interacting SCROLLBAR_POINTER_LEAVE idle.

(** The four tags of [ScrollAreaContextValue['type']]. *)
Definition recognized (t : string) : bool :=
  String.eqb t "always" || String.eqb t "auto" || String.eqb t "hover" || String.eqb t "scroll".

(** [scrollPos] and [maxScrollPos] as the axis components compute them. *)
Definition wheelScrollPos (o : orientation) (vp : HTMLDivElement) (ev : WheelEvent) : number :=
  match o with
  | horizontal => (scrollLeft vp + deltaX ev)%js
  | vertical => (scrollTop vp + deltaY ev)%js
  end.

Definition wheelMaxScrollPos (o : orientation) (vp : HTMLDivElement) : number :=
  match o with
  | horizontal => (scrollWidth vp - offsetWidth vp)%js
  | vertical => (scrollHeight vp - offsetHeight vp)%js
  end.

(** The assignment to the native scroll offset of the axis. *)
Definition writeScroll (o : orientation) (v : number) : effect :=
  match o with
  | horizontal => SetScrollLeft v
  | vertical => SetScrollTop v
  end.

(** A viewport scrolled to 200 of 600 horizontally and to the end, 600 of
    600, vertically. *)
Definition wheel_viewport : HTMLDivElement :=
  {| scrollLeft := ofZ 200; scrollTop := ofZ 600;
     scrollWidth := ofZ 1000; scrollHeight := ofZ 1000;
     offsetWidth := ofZ 400; offsetHeight := ofZ 400 |}.

Definition wheel_context : ScrollAreaContextValue :=
  {| ctx_type := "always"; ctx_scrollHideDelay := ofZ 600;
     ctx_viewport := Some wheel_viewport;
     ctx_scrollbarX := None; ctx_scrollbarY := None |}.

(** A scrollbar whose padding exceeds its size. *)
Definition narrow_scrollbar : ScrollbarSizes :=
  {| size := ofZ 10; paddingStart := ofZ 10; paddingEnd := ofZ 10 |}.

(** The scrollbar of the axis. *)
Definition scrollbarOf (o : orientation) (context : ScrollAreaContextValue)
  : option ScrollbarElement :=
  match o with
  | horizontal => ctx_scrollbarX context
  | vertical => ctx_scrollbarY context
  end.

(** [toInt(computedStyle?.width)], respectively [height]. *)
Definition trackPixelSize (o : orientation) (scrollbar : ScrollbarElement) : number :=
  match o with
  | horizontal => toInt (Some (width (getComputedStyle scrollbar)))
  | vertical => toInt (Some (height (getComputedStyle scrollbar)))
  end.

(** [contentWidth], respectively [contentHeight]. *)
Definition contentSize (o : orientation) (context : ScrollAreaContextValue) : number :=
  match o with
  | horizontal => contentWidth context
  | vertical => contentHeight context
  end.

(** Computed style of a scrollbar 100 pixels long and thick, no padding. *)
Definition px100 : CSSStyleDeclaration :=
  {| width := "100px"; height := "100px";
     paddingLeft := "0px"; paddingRight := "0px";
     paddingTop := "0px"; paddingBottom := "0px" |}.

Definition track100 : ScrollbarElement :=
  {| clientWidth := ofZ 100; clientHeight := ofZ 100; getComputedStyle := px100 |}.

(** A context whose viewport has the given content and viewport extents on
    both axes and whose two scrollbars are [track100]. *)
Definition context_of (contentExtent viewportExtent : Z) : ScrollAreaContextValue :=
  {| ctx_type := "always"; ctx_scrollHideDelay := ofZ 600;
     ctx_viewport :=
       Some {| scrollLeft := zero; scrollTop := zero;
               scrollWidth := ofZ contentExtent; scrollHeight := ofZ contentExtent;
               offsetWidth := ofZ viewportExtent; offsetHeight := ofZ viewportExtent |};
     ctx_scrollbarX := Some track100; ctx_scrollbarY := Some track100 |}.

(** The sizes [ScrollAreaScrollbarX] hands to [onDragScroll] in
    [context_of 1000 400]. *)
Definition drag_sizes : SizesOmitThumb :=
  {| o_content := ofZ 1000; o_viewport := ofZ 400;
     o_scrollbar := {| size := ofZ 100; paddingStart := zero; paddingEnd := zero |} |}.

(** A [Sizes] value all of whose fields are finite. *)
Definition finSizes (th c v sz ps pe : Qc) : Sizes :=
  {| thumb := Fin th; content := Fin c; viewport := Fin v;
     scrollbar := {| size := Fin sz; paddingStart := Fin ps; paddingEnd := Fin pe |} |}.

(** The thumb offset computed from the scroll position computed from a
    pointer position. *)
Definition thumbOffsetFromPointer (pointerPos pointerOffset : number) (sizes : Sizes) : number :=
  interpolateThumbOffsetFromScroll
    (interpolateScrollPositionFromPointer pointerPos pointerOffset sizes) sizes.

(** The cells of [ScrollAreaScrollbarVisible] once the ratio effect of the
    horizontal scrollbar has run; no pointer offset is recorded. *)
Definition st_1000_400 : VisibleState :=
  fold_left applyEffect (ratioEffect horizontal (context_of 1000 400)) VisibleState_init.

(** The axis an [orientation] property selects in the components that only
    test [=== 'horizontal']. *)
Definition axisOf (props_orientation : option string) : orientation :=
  if isHorizontal props_orientation then horizontal else vertical.

(** The [pointerenter] listener of a run of the hover effect. *)
Definition enterListener (run : nat) : string * handler :=
  ("pointerenter"%string, handlePointerEnter run).

(** The [pointerleave] listener of a run of the hover effect. *)
Definition leaveListener (run : nat) : string * handler :=
  ("pointerleave"%string, handlePointerLeave run).

Definition is_leave (e : event) : bool :=
  match e with SCROLLBAR_POINTER_LEAVE => true | _ => false end.

Definition is_hide (e : event) : bool :=
  match e with HIDE => true | _ => false end.

(** A pointer-down with the main button. *)
Definition isMainDown (i : pointerInput) : bool :=
  match i with
  | PointerDown _ ev => (button ev =? MAIN_POINTER)%Z
  | _ => false
  end.

(** The positions handed to [onDragScroll] among the effects. *)
Definition drags (effects : list implEffect) : list Point :=
  flat_map (fun e => match e with DragScroll p => [p] | _ => [] end) effects.

(** The pointer position of an event relative to a rectangle. *)
Definition relativeTo (rect : ClientRect) (ev : PointerEvent) : Point :=
  {| x := (clientX ev - rect_left rect)%js; y := (clientY ev - rect_top rect)%js |}.

(** The native scroll offset of the axis. *)
Definition nativeOffset (o : orientation) (vp : HTMLDivElement) : number :=
  match o with horizontal => scrollLeft vp | vertical => scrollTop vp end.

(** The wheel delta of the axis. *)
Definition wheelDelta (o : orientation) (ev : WheelEvent) : number :=
  match o with horizontal => deltaX ev | vertical => deltaY ev end.

(** A pointer event with the main button at the given client position. *)
Definition mainPointerAt (cx cy : Z) : PointerEvent :=
  {| button := 0; pointerId := 1; clientX := ofZ cx; clientY := ofZ cy |}.

(** A context without viewport. *)
Definition detached_context : ScrollAreaContextValue :=
  {| ctx_type := "hover"; ctx_scrollHideDelay := ofZ 600;
     ctx_viewport := None; ctx_scrollbarX := Some track100; ctx_scrollbarY := None |}.

(** [Omit<Sizes, 'thumb'>] with finite fields. *)
Definition finOmit (c v sz ps pe : Qc) : SizesOmitThumb :=
  {| o_content := Fin c; o_viewport := Fin v;
     o_scrollbar := {| size := Fin sz; paddingStart := Fin ps; paddingEnd := Fin pe |} |}.


(** [a <= b] on rationals, as a boolean. *)
Definition Qcleb (a b : Qc) : bool :=
  match a ?= b with Gt => false | _ => true end.

(** The character of a decimal digit. *)
Definition digitChar (d : nat) : ascii := ascii_of_nat (48 + d).

(** The string of a list of decimal digits, most significant first. *)
Fixpoint digitString (ds : list nat) : string :=
  match ds with
  | [] => EmptyString
  | d :: rest => String (digitChar d) (digitString rest)
  end.

(** The number a list of decimal digits denotes. *)
Definition valueOf (ds : list nat) : Z :=
  fold_left (fun a d => (10 * a + Z.of_nat d)%Z) ds 0%Z.

Definition isDigit (d : nat) : bool := (d <? 10)%nat.

Definition startsWithDigit (s : string) : bool :=
  match s with
  | String c _ => match digitOf c with Some _ => true | None => false end
  | EmptyString => false
  end.

(** A character that can start neither white space, nor a sign, nor a
    digit. *)
Definition startsNoNumber (c : ascii) : bool :=
  negb (isWhite c) && negb (Ascii.eqb c "-") && negb (Ascii.eqb c "+")
  && match digitOf c with Some _ => false | None => true end.

(** * Properties *)

(** Closes an equation between closed values once both sides are computed:
    canonical rationals are compared by their value. *)
Ltac js_eq :=
  first
    [ reflexivity
    | match goal with |- @eq Qc _ _ => apply Qc_is_canon; reflexivity end
    | progress f_equal; js_eq ].

(** Turns an order statement between canonical rationals into one between
    plain rationals, where [lra] and [nra] apply. *)
Ltac qc_to_q :=
  unfold Qcle, Qclt, Qcminus, Qcplus, Qcopp, Qcmult in *;
  cbn [this Q2Qc] in *;
  rewrite ?Qred_correct in *.

(** ** Facts about the number model *)

Section NumberFacts.

Lemma Qc_eq_bool_iff (a b : Qc) : Qc_eq_bool a b = true <-> a = b.
Proof.
  unfold Qc_eq_bool. destruct (Qc_eq_dec a b) as [e | n]; split; intro H;
    try reflexivity; try assumption; try discriminate. contradiction.
Qed.

Lemma Qc_eq_bool_refl (a : Qc) : Qc_eq_bool a a = true.
Proof. apply Qc_eq_bool_iff. reflexivity. Qed.

Lemma Qc_eq_bool_neq (a b : Qc) : a <> b -> Qc_eq_bool a b = false.
Proof.
  intro n. destruct (Qc_eq_bool a b) eqn:E; [ | reflexivity ].
  apply Qc_eq_bool_iff in E. contradiction.
Qed.

Lemma Qcltb_iff (a b : Qc) : Qcltb a b = true <-> a < b.
Proof.
  unfold Qcltb. rewrite Qclt_alt.
  destruct (a ?= b); split; intro H; try reflexivity; discriminate.
Qed.

Lemma Qcltb_irrefl (a : Qc) : Qcltb a a = false.
Proof.
  destruct (Qcltb a a) eqn:E; [ | reflexivity ].
  apply Qcltb_iff in E. exfalso. exact (Qclt_not_eq _ _ E eq_refl).
Qed.

Lemma strict_eq_Fin (a b : Qc) : strict_eq (Fin a) (Fin b) = true <-> a = b.
Proof. simpl. apply Qc_eq_bool_iff. Qed.

Lemma le_Fin (a b : Qc) : le (Fin a) (Fin b) = true <-> a <= b.
Proof.
  unfold le; simpl. rewrite orb_true_iff, Qcltb_iff, Qc_eq_bool_iff. split.
  - intros [H | H]; [ apply Qclt_le_weak; exact H | subst; apply Qcle_refl ].
  - intro H. apply Qcle_lt_or_eq in H. exact H.
Qed.

(** Division by a finite non-zero number is the exact quotient. *)
Lemma div_Fin (a b : Qc) : b <> 0 -> (Fin a / Fin b)%js = Fin (a / b).
Proof. intro n. simpl. rewrite (Qc_eq_bool_neq _ _ n). reflexivity. Qed.

(** Division by zero never yields a finite number. *)
Lemma div_zero_not_finite (n : number) : is_finite (n / zero)%js = false.
Proof.
  destruct n as [a | | | ]; try reflexivity.
  unfold div, zero. rewrite Qc_eq_bool_refl. unfold inf_of_sign.
  destruct (Qc_eq_bool a 0); [ reflexivity | ]. destruct (Qcltb a 0); reflexivity.
Qed.

(** What a division by zero yields for a finite numerator. *)
Lemma div_zero_cases (a : Qc) :
  (Fin a / zero)%js = if Qc_eq_bool a 0 then NaN else inf_of_sign a.
Proof. unfold div, zero. rewrite Qc_eq_bool_refl. reflexivity. Qed.

End NumberFacts.

(** ** The activity state machine *)

Lemma spec_transition_sound (s : state) (e : event) (s' : state) :
  spec_transition s e s' -> send machine s e = s'.
Proof. intro H. inversion H; subst; try reflexivity. destruct s; reflexivity. Qed.

Lemma spec_transition_complete (s : state) (e : event) :
  send machine s e <> s -> spec_transition s e (send machine s e).
Proof.
  destruct s, e; simpl; intro H; try (exfalso; apply H; reflexivity); constructor.
Qed.

(** C1: from the initial state [hidden], the machine of the "scroll" policy
    makes exactly the moves of section 4.4: pointer-enter takes each of the
    four states to [interacting]; scroll takes [idle] and [hidden] to
    [scrolling] and keeps [interacting]; scroll-end takes [scrolling] to
    [idle]; hide takes [idle] to [hidden]; pointer-leave takes [interacting]
    to [idle], not to [hidden].  Every listed transition is a move of the
    machine, and every move that changes the state is a listed transition. *)
Theorem activity_machine_transitions :
  initialState = hidden
  /\ (forall s, send machine s SCROLLBAR_POINTER_ENTER = interacting)
  /\ send machine idle SCROLL = scrolling
  /\ send machine hidden SCROLL = scrolling
  /\ send machine interacting SCROLL = interacting
  /\ send machine scrolling SCROLL_END = idle
  /\ send machine idle HIDE = hidden
  /\ send machine interacting SCROLLBAR_POINTER_LEAVE = idle
  /\ send machine interacting SCROLLBAR_POINTER_LEAVE <> hidden
  /\ (forall s e s', spec_transition s e s' -> send machine s e = s')
  /\ (forall s e, send machine s e <> s -> spec_transition s e (send machine s e)).
Proof.
  repeat split; try reflexivity; try discriminate.
  - intro s; destruct s; reflexivity.
  - exact spec_transition_sound.
  - exact spec_transition_complete.
Qed.

(** From any state, entering the scrollbar, scrolling and leaving it ends in
    [idle], having passed through [interacting] only. *)
Example enter_scroll_leave (s : state) :
  run machine s [SCROLLBAR_POINTER_ENTER; SCROLL] = interacting
  /\ run machine s [SCROLLBAR_POINTER_ENTER; SCROLL; SCROLLBAR_POINTER_LEAVE] = idle.
Proof. destruct s; split; reflexivity. Qed.

(** ** Policy dispatch *)

(** C7, as stated, fails: a configured value outside the four tags renders
    nothing instead of the hover-triggered scrollbar. *)
Lemma unrecognized_type_not_hover :
  recognized "sticky" = false
  /\ ScrollAreaScrollbar (ScrollArea_type (Some "sticky"%string)) = None
  /\ ScrollAreaScrollbar (ScrollArea_type (Some "sticky"%string))
     <> ScrollAreaScrollbar "hover".
Proof. repeat split; try reflexivity. discriminate. Qed.

(** C7, amended: the hover policy is the default of an absent
    ([undefined]) value only; every value given that is not one of the four
    tags makes [ScrollAreaScrollbar] return [null]. *)
Theorem type_default_and_fallthrough :
  ScrollAreaScrollbar (ScrollArea_type None) = Some ScrollAreaScrollbarHover
  /\ forall t, recognized t = false -> ScrollAreaScrollbar (ScrollArea_type (Some t)) = None.
Proof.
  split; [ reflexivity | ].
  intros t H. unfold recognized in H. simpl. unfold ScrollAreaScrollbar.
  repeat (apply orb_false_iff in H; destruct H as [H ?]).
  rewrite H. repeat match goal with E : _ = false |- _ => rewrite E; clear E end.
  reflexivity.
Qed.

(** ** Wheel interception *)

Lemma strict_eq_not_lt (a b : number) :
  strict_eq a b = true -> lt a b = false /\ lt b a = false.
Proof.
  destruct a as [p | | | ], b as [q | | | ]; simpl; try discriminate; auto.
  intro H. apply Qc_eq_bool_iff in H. subst q. split; apply Qcltb_irrefl.
Qed.

Lemma handleWheel_unfold (o : orientation) (context : ScrollAreaContextValue)
    (vp : HTMLDivElement) (ev : WheelEvent) :
  ctx_viewport context = Some vp ->
  handleWheel o context true ev =
    preventPageScrollOnWheel (wheelScrollPos o vp ev) (wheelMaxScrollPos o vp)
    ++ [writeScroll o (wheelScrollPos o vp ev)].
Proof.
  intro H. destruct o; simpl;
    [ unfold X_onWheelScroll | unfold Y_onWheelScroll ];
    rewrite H; unfold Visible_onWheelScroll; rewrite H; reflexivity.
Qed.

Lemma In_preventPageScrollOnWheel (scrollPos maxScrollPos : number) :
  In PreventDefault (preventPageScrollOnWheel scrollPos maxScrollPos)
  <-> lt zero scrollPos = true /\ lt scrollPos maxScrollPos = true.
Proof.
  unfold preventPageScrollOnWheel, gt.
  destruct (lt zero scrollPos), (lt scrollPos maxScrollPos); simpl; split;
    try tauto; intros [H1 H2]; discriminate.
Qed.

(** C2: on a wheel event over the track, with [scrollPos] the native offset
    plus the delta and [maxScrollPos] the content extent minus the viewport
    extent, the default is prevented exactly when
    [0 < scrollPos < maxScrollPos]; [scrollPos] is written to the native
    offset whatever the outcome of that test; a [scrollPos] equal to [0] or to
    [maxScrollPos] does not prevent the default. *)
Theorem wheel_prevents_default_iff_mid_range
    (o : orientation) (context : ScrollAreaContextValue)
    (vp : HTMLDivElement) (ev : WheelEvent) :
  ctx_viewport context = Some vp ->
  let scrollPos := wheelScrollPos o vp ev in
  let maxScrollPos := wheelMaxScrollPos o vp in
  let effects := handleWheel o context true ev in
  (In PreventDefault effects
   <-> lt zero scrollPos = true /\ lt scrollPos maxScrollPos = true)
  /\ In (writeScroll o scrollPos) effects
  /\ (forall v, In (writeScroll o v) effects -> v = scrollPos)
  /\ (strict_eq scrollPos zero = true \/ strict_eq scrollPos maxScrollPos = true ->
      effects = [writeScroll o scrollPos]).
Proof.
  intros H scrollPos maxScrollPos effects.
  assert (E : effects =
              preventPageScrollOnWheel scrollPos maxScrollPos ++ [writeScroll o scrollPos])
    by (apply handleWheel_unfold; exact H).
  assert (P := In_preventPageScrollOnWheel scrollPos maxScrollPos).
  rewrite E. split; [ split | split; [ | split ] ].
  - intro I. apply in_app_or in I. destruct I as [I | I]; [ apply P; exact I | ].
    destruct I as [I | []]. destruct o; discriminate I.
  - intro C. apply in_or_app. left. apply P. exact C.
  - apply in_or_app. right. left. reflexivity.
  - intros v I. apply in_app_or in I. destruct I as [I | [I | []]].
    + unfold preventPageScrollOnWheel in I.
      destruct (gt scrollPos zero && lt scrollPos maxScrollPos); simpl in I;
        [ destruct I as [I | []]; destruct o; discriminate I | contradiction ].
    + destruct o; simpl in I; congruence.
  - intro B. unfold preventPageScrollOnWheel, gt.
    destruct B as [B | B]; apply strict_eq_not_lt in B; destruct B as [B1 B2].
    + rewrite B2. reflexivity.
    + rewrite B1, andb_false_r. reflexivity.
Qed.

(** A delta of +50 at offset 200 of 600 writes 250 and prevents the default;
    at the far end (offset 600 of 600, delta 0) the write happens alone. *)
Example wheel_mid_range_and_end :
  handleWheel horizontal wheel_context true {| deltaX := ofZ 50; deltaY := zero |}
  = [PreventDefault; SetScrollLeft (ofZ 250)]
  /\ handleWheel vertical wheel_context true {| deltaX := zero; deltaY := zero |}
     = [SetScrollTop (ofZ 600)]
  /\ handleWheel horizontal wheel_context false {| deltaX := ofZ 50; deltaY := zero |} = [].
Proof. repeat split; vm_compute; js_eq. Qed.

Lemma wheel_prevents_default_iff_mid_range_witness :
  let ev := {| deltaX := ofZ 50; deltaY := zero |} in
  let effects := handleWheel horizontal wheel_context true ev in
  (In PreventDefault effects
   <-> lt zero (wheelScrollPos horizontal wheel_viewport ev) = true
       /\ lt (wheelScrollPos horizontal wheel_viewport ev)
             (wheelMaxScrollPos horizontal wheel_viewport) = true)
  /\ In (writeScroll horizontal (wheelScrollPos horizontal wheel_viewport ev)) effects
  /\ (forall v, In (writeScroll horizontal v) effects ->
                v = wheelScrollPos horizontal wheel_viewport ev)
  /\ (strict_eq (wheelScrollPos horizontal wheel_viewport ev) zero = true
      \/ strict_eq (wheelScrollPos horizontal wheel_viewport ev)
                   (wheelMaxScrollPos horizontal wheel_viewport) = true ->
      effects = [writeScroll horizontal (wheelScrollPos horizontal wheel_viewport ev)]).
Proof.
  exact (wheel_prevents_default_iff_mid_range horizontal wheel_context wheel_viewport
           {| deltaX := ofZ 50; deltaY := zero |} eq_refl).
Defined.

(** ** Thumb size *)

Lemma getThumbSizePx_Fin (ratio sz ps pe : Qc) :
  getThumbSizePx (Fin ratio)
    {| size := Fin sz; paddingStart := Fin ps; paddingEnd := Fin pe |}
  = Fin ((sz - (ps + pe)) * ratio).
Proof. unfold getThumbSizePx; simpl. f_equal. Qed.

(** C8, as stated, fails: with padding 10 + 10 on a scrollbar of size 10 and
    ratio 1/2 the thumb size is -5, which is negative and is not
    [max(0, -5)]. *)
Lemma thumb_size_can_be_negative :
  let ratio := (ofZ 1 / ofZ 2)%js in
  getThumbSizePx ratio narrow_scrollbar = ofZ (-5)
  /\ lt (getThumbSizePx ratio narrow_scrollbar) zero = true
  /\ getThumbSizePx ratio narrow_scrollbar
     <> JS.max zero ((size narrow_scrollbar
                      - (paddingStart narrow_scrollbar + paddingEnd narrow_scrollbar))
                     * ratio)%js.
Proof.
  split; [ vm_compute; js_eq | split; [ reflexivity | ] ].
  intro H. vm_compute in H. discriminate H.
Qed.

(** C8, amended: the thumb size is the plain product
    [(size - padding) * ratio]; for a ratio that is not negative and a
    padding that does not exceed the size this product equals
    [max(0, (size - padding) * ratio)] and is not negative. *)
Theorem thumb_size_px_when_padding_fits (ratio sz ps pe : Qc) :
  ps + pe <= sz ->
  0 <= ratio ->
  let sb := {| size := Fin sz; paddingStart := Fin ps; paddingEnd := Fin pe |} in
  getThumbSizePx (Fin ratio) sb = Fin ((sz - (ps + pe)) * ratio)
  /\ getThumbSizePx (Fin ratio) sb
     = JS.max zero ((size sb - (paddingStart sb + paddingEnd sb)) * Fin ratio)%js
  /\ lt (getThumbSizePx (Fin ratio) sb) zero = false.
Proof.
  intros Hpad Hratio sb.
  assert (N : 0 <= (sz - (ps + pe)) * ratio).
  { rewrite <- (Qcmult_0_l ratio). apply Qcmult_le_compat_r; [ | exact Hratio ].
    unfold Qcminus. apply (proj1 (Qcle_minus_iff (ps + pe) sz)). exact Hpad. }
  unfold sb. rewrite getThumbSizePx_Fin. split; [ reflexivity | ].
  cbn [size paddingStart paddingEnd].
  change ((Fin sz - (Fin ps + Fin pe)) * Fin ratio)%js with (Fin ((sz - (ps + pe)) * ratio)).
  set (t := (sz - (ps + pe)) * ratio) in *.
  assert (L : lt (Fin t) zero = false).
  { simpl. destruct (Qcltb t 0) eqn:E; [ | reflexivity ].
    apply Qcltb_iff in E. exfalso. exact (Qcle_not_lt _ _ N E). }
  split; [ | exact L ].
  unfold JS.max, zero. simpl. destruct (Qcltb 0 t) eqn:E; [ reflexivity | ].
  f_equal. apply Qcle_antisym; [ | exact N ].
  apply Qcnot_lt_le. intro C. apply Qcltb_iff in C. congruence.
Qed.

Lemma thumb_size_px_when_padding_fits_witness :
  let sb := {| size := Fin (Q2Qc 100); paddingStart := Fin (Q2Qc 4); paddingEnd := Fin (Q2Qc 6) |} in
  getThumbSizePx (Fin (Q2Qc (1 # 2))) sb
  = Fin ((Q2Qc 100 - (Q2Qc 4 + Q2Qc 6)) * Q2Qc (1 # 2))
  /\ getThumbSizePx (Fin (Q2Qc (1 # 2))) sb
     = JS.max zero ((size sb - (paddingStart sb + paddingEnd sb)) * Fin (Q2Qc (1 # 2)))%js
  /\ lt (getThumbSizePx (Fin (Q2Qc (1 # 2))) sb) zero = false.
Proof.
  apply (thumb_size_px_when_padding_fits (Q2Qc (1 # 2)) (Q2Qc 100) (Q2Qc 4) (Q2Qc 6));
    vm_compute; discriminate.
Defined.

(** ** Ratio recomputation *)

(** C6, as stated, fails: with content size 0 and a track of 100 pixels the
    ratio handed to the consumer is [Infinity] on both axes, not 0. *)
Lemma ratio_of_empty_content_not_zero :
  contentSize horizontal (context_of 0 0) = zero
  /\ contentSize vertical (context_of 0 0) = zero
  /\ ratioEffect horizontal (context_of 0 0) = [ThumbRatioChange PosInf; SetComputedStyle px100]
  /\ ratioEffect vertical (context_of 0 0) = [ThumbRatioChange PosInf; SetComputedStyle px100]
  /\ ~ In (ThumbRatioChange zero) (ratioEffect horizontal (context_of 0 0)).
Proof.
  split; [ | split; [ | split; [ | split ] ] ]; try (vm_compute; js_eq).
  intro H. vm_compute in H. destruct H as [H | [H | []]]; discriminate H.
Qed.

(** A track of 0 pixels over a content of size 0 gives [NaN]. *)
Example ratio_zero_over_zero :
  (toInt (Some "0px"%string) / contentSize vertical (context_of 0 0))%js = NaN.
Proof. reflexivity. Qed.

(** C6, amended: when the scrollbar of the axis is mounted, the layout
    effect hands [trackPixelSize / contentSize] to the ratio consumer, the
    division being the unguarded one of the language; for a content size of
    0 that quotient is not a finite number, so it is not 0. *)
Theorem ratio_is_unguarded_quotient
    (o : orientation) (context : ScrollAreaContextValue) (scrollbar : ScrollbarElement) :
  scrollbarOf o context = Some scrollbar ->
  let ratio := (trackPixelSize o scrollbar / contentSize o context)%js in
  ratioEffect o context
  = [ThumbRatioChange ratio; SetComputedStyle (getComputedStyle scrollbar)]
  /\ (contentSize o context = zero -> is_finite ratio = false /\ ratio <> zero).
Proof.
  intros H ratio. split.
  - destruct o; simpl in *; [ unfold X_ratioEffect | unfold Y_ratioEffect ];
      rewrite H; reflexivity.
  - intro Z. assert (F : is_finite ratio = false).
    { unfold ratio. rewrite Z. apply div_zero_not_finite. }
    split; [ exact F | ]. intro C. rewrite C in F. discriminate F.
Qed.

Lemma ratio_is_unguarded_quotient_witness :
  let ratio := (trackPixelSize horizontal track100
                / contentSize horizontal (context_of 1000 400))%js in
  ratioEffect horizontal (context_of 1000 400)
  = [ThumbRatioChange ratio; SetComputedStyle (getComputedStyle track100)]
  /\ (contentSize horizontal (context_of 1000 400) = zero ->
      is_finite ratio = false /\ ratio <> zero).
Proof.
  exact (ratio_is_unguarded_quotient horizontal (context_of 1000 400) track100 eq_refl).
Defined.

(** ** The drag pointer offset *)

Lemma sub_Fin_diag (c : Qc) : (Fin c - Fin c)%js = zero.
Proof. unfold sub, zero; simpl. f_equal. apply Qcplus_opp_r. Qed.

(** A recorded offset that is truthy is the one used. *)
Lemma recorded_pointer_offset_is_used
    (st : VisibleState) (pointerPos : number) (sizes : SizesOmitThumb) :
  truthy (pointerOffsetRef st) = true ->
  getScrollPositionFromPointer st pointerPos sizes
  = interpolateScrollPositionFromPointer pointerPos (pointerOffsetRef st)
      (withThumb sizes (getThumbSizePx (thumbRatio st) (o_scrollbar sizes))).
Proof.
  intro H. unfold getScrollPositionFromPointer, or_else. rewrite H. reflexivity.
Qed.

(** C10: a recorded pointer offset of exactly 0 is treated as no recorded
    offset.  Whether the ref holds 0 because the pointer went down on the
    thumb's leading edge, because pointer-up reset it, or because nothing was
    ever recorded, [getScrollPositionFromPointer] interpolates with half the
    thumb's current pixel length as the pointer offset. *)
Theorem zero_pointer_offset_becomes_half_thumb
    (st : VisibleState) (pointerPos : number) (sizes : SizesOmitThumb)
    (o : orientation) (edge other : Qc) (rest : number) :
  let thumbSizePx := getThumbSizePx (thumbRatio st) (o_scrollbar sizes) in
  let fallback :=
    interpolateScrollPositionFromPointer pointerPos (thumbSizePx / ofZ 2)%js
      (withThumb sizes thumbSizePx) in
  getScrollPositionFromPointer (onThumbPointerUp st) pointerPos sizes = fallback
  /\ getScrollPositionFromPointer
       (onThumbPointerDown o {| x := zero; y := zero |} st) pointerPos sizes = fallback
  /\ getScrollPositionFromPointer
       (Thumb_onPointerDownCapture horizontal (Fin edge) rest (Fin edge) (Fin other) st)
       pointerPos sizes = fallback
  /\ getScrollPositionFromPointer
       (Thumb_onPointerDownCapture vertical rest (Fin edge) (Fin other) (Fin edge) st)
       pointerPos sizes = fallback
  /\ getScrollPositionFromPointer
       (setThumbRatio (thumbRatio st) VisibleState_init) pointerPos sizes = fallback.
Proof.
  intros thumbSizePx fallback.
  assert (Z : forall st', pointerOffsetRef st' = zero -> thumbRatio st' = thumbRatio st ->
                          getScrollPositionFromPointer st' pointerPos sizes = fallback).
  { intros st' Hp Hr. unfold getScrollPositionFromPointer, or_else.
    rewrite Hp, Hr. reflexivity. }
  repeat split; apply Z; try reflexivity.
  - destruct o; reflexivity.
  - apply sub_Fin_diag.
  - apply sub_Fin_diag.
Qed.

(** With a thumb of 10 pixels, a pointer at 35 after grabbing the thumb by
    its leading edge scrolls to 200, the position for a grab at the thumb's
    middle; a leading-edge offset taken literally would give 700/3. *)
Example leading_edge_grab_is_recentred :
  let st := onThumbPointerDown horizontal {| x := zero; y := ofZ 3 |}
              (setThumbRatio (ofZ 1 / ofZ 10)%js VisibleState_init) in
  getScrollPositionFromPointer st (ofZ 35) drag_sizes = ofZ 200
  /\ interpolateScrollPositionFromPointer (ofZ 35) zero (withThumb drag_sizes (ofZ 10))
     = Fin (Q2Qc (700 # 3)).
Proof. split; vm_compute; js_eq. Qed.

(** ** The interpolations on finite sizes *)

Section Interpolation.

Variables th c v sz ps pe : Qc.

Local Abbreviation sizes := (finSizes th c v sz ps pe).

(** Free room of the track: scrollbar size minus padding minus thumb. *)
Local Abbreviation room := (sz - ps - pe - th).

Lemma linearScale_degenerate (i0 i1 o0 o1 value : number) :
  strict_eq i0 i1 = true \/ strict_eq o0 o1 = true ->
  linearScale (i0, i1) (o0, o1) value = o0.
Proof.
  intro H. unfold linearScale.
  destruct H as [H | H]; rewrite H; [ | rewrite orb_true_r ]; reflexivity.
Qed.

Lemma linearScale_Fin (i0 i1 o0 o1 value : Qc) :
  i0 <> i1 -> o0 <> o1 ->
  linearScale (Fin i0, Fin i1) (Fin o0, Fin o1) (Fin value)
  = Fin (o0 + (o1 - o0) / (i1 - i0) * (value - i0)).
Proof.
  intros Hi Ho. unfold linearScale. simpl strict_eq.
  rewrite (Qc_eq_bool_neq _ _ Hi), (Qc_eq_bool_neq _ _ Ho). simpl orb. cbv iota.
  change (Fin o1 - Fin o0)%js with (Fin (o1 - o0)).
  change (Fin i1 - Fin i0)%js with (Fin (i1 - i0)).
  change (Fin value - Fin i0)%js with (Fin (value - i0)).
  rewrite div_Fin; [ reflexivity | ].
  intro E. apply Hi. symmetry.
  rewrite <- (Qcplus_0_l i0), <- E. ring.
Qed.

(** Whatever the finite arguments, the scale returns a finite number: the
    only division is by a difference known not to be zero. *)
Lemma linearScale_finite (i0 i1 o0 o1 value : Qc) :
  is_finite (linearScale (Fin i0, Fin i1) (Fin o0, Fin o1) (Fin value)) = true.
Proof.
  destruct (Qc_eq_dec i0 i1) as [Ei | Ni].
  - rewrite linearScale_degenerate; [ reflexivity | left; apply strict_eq_Fin; exact Ei ].
  - destruct (Qc_eq_dec o0 o1) as [Eo | No].
    + rewrite linearScale_degenerate; [ reflexivity | right; apply strict_eq_Fin; exact Eo ].
    + rewrite linearScale_Fin by assumption. reflexivity.
Qed.

Lemma scrollFromPointer_unfold (p o : Qc) :
  interpolateScrollPositionFromPointer (Fin p) (Fin o) sizes
  = linearScale (Fin (ps + o), Fin (sz - pe - (th - o))) (Fin 0, Fin (c - v)) (Fin p).
Proof. reflexivity. Qed.

Lemma thumbOffsetFromScroll_unfold (s : Qc) :
  interpolateThumbOffsetFromScroll (Fin s) sizes
  = linearScale (Fin 0, Fin (c - v)) (Fin 0, Fin (sz - (ps + pe) - th)) (Fin s).
Proof. reflexivity. Qed.

Lemma pointer_domain_width (o : Qc) : sz - pe - (th - o) - (ps + o) = room.
Proof. ring. Qed.

Lemma thumb_codomain_width : sz - (ps + pe) - th = room.
Proof. ring. Qed.

Lemma Qc_diff_zero (a b : Qc) : a - b = 0 <-> a = b.
Proof.
  split; intro H.
  - rewrite <- (Qcplus_0_l b), <- H. ring.
  - subst. ring.
Qed.

Lemma pointer_domain_degenerate (o : Qc) : ps + o = sz - pe - (th - o) <-> room = 0.
Proof.
  rewrite <- (pointer_domain_width o). split; intro H.
  - apply Qc_diff_zero. symmetry. exact H.
  - symmetry. apply Qc_diff_zero. exact H.
Qed.

(** Where neither interval is degenerate, the pointer position is scaled by
    [maxScroll / room] from the lowest pointer position. *)
Lemma scrollFromPointer_linear (p o : Qc) :
  c <> v -> room <> 0 ->
  interpolateScrollPositionFromPointer (Fin p) (Fin o) sizes
  = Fin ((c - v) / room * (p - (ps + o))).
Proof.
  intros Hc Hr. rewrite scrollFromPointer_unfold, linearScale_Fin.
  - f_equal. rewrite (pointer_domain_width o). field. exact Hr.
  - intro E. apply Hr. apply (pointer_domain_degenerate o). exact E.
  - intro E. apply Hc. apply Qc_diff_zero. symmetry. exact E.
Qed.

(** Where neither interval is degenerate, the scroll position is scaled by
    [room / maxScroll]. *)
Lemma thumbOffsetFromScroll_linear (s : Qc) :
  c <> v -> room <> 0 ->
  interpolateThumbOffsetFromScroll (Fin s) sizes = Fin (room / (c - v) * s).
Proof.
  intros Hc Hr. assert (Hd : c - v <> 0) by (intro E; apply Hc, Qc_diff_zero, E).
  rewrite thumbOffsetFromScroll_unfold, linearScale_Fin.
  - f_equal. rewrite thumb_codomain_width. field. exact Hd.
  - intro E. apply Hd. symmetry. exact E.
  - rewrite thumb_codomain_width. intro E. apply Hr. symmetry. exact E.
Qed.


Lemma thumbOffsetFromScroll_degenerate (s : Qc) :
  c = v \/ room = 0 ->
  interpolateThumbOffsetFromScroll (Fin s) sizes = zero.
Proof.
  intro H. rewrite thumbOffsetFromScroll_unfold. apply linearScale_degenerate.
  destruct H as [H | H]; [ left | right ]; apply strict_eq_Fin.
  - symmetry. apply Qc_diff_zero. exact H.
  - rewrite thumb_codomain_width. symmetry. exact H.
Qed.

(** Neither interpolation divides by zero on finite sizes: a division by zero
    would leave a non-finite result. *)
Lemma interpolations_finite (p o s : Qc) :
  is_finite (interpolateScrollPositionFromPointer (Fin p) (Fin o) sizes) = true
  /\ is_finite (interpolateThumbOffsetFromScroll (Fin s) sizes) = true.
Proof.
  rewrite scrollFromPointer_unfold, thumbOffsetFromScroll_unfold.
  split; apply linearScale_finite.
Qed.

End Interpolation.

(** ** Endpoints *)




Example thumb_offset_at_600_is_60 :
  interpolateThumbOffsetFromScroll (ofZ 600)
    (finSizes (Q2Qc 40) (Q2Qc 1000) (Q2Qc 400) (Q2Qc 100) 0 0) = ofZ 60.
Proof. vm_compute; js_eq. Qed.

(** ** Monotonicity *)





Example pointer_30_and_50_give_thumb_10_and_30 :
  let sizes := finSizes (Q2Qc 40) (Q2Qc 1000) (Q2Qc 400) (Q2Qc 100) 0 0 in
  thumbOffsetFromPointer (ofZ 30) (ofZ 20) sizes = ofZ 10
  /\ thumbOffsetFromPointer (ofZ 50) (ofZ 20) sizes = ofZ 30.
Proof. split; vm_compute; js_eq. Qed.

(** ** Where doubles part from exact arithmetic *)

(** On doubles the far endpoint can be missed by one unit in the last
    place: with content 457, viewport 300 and a track of 300 the thumb
    offset at [maxScroll = 157] is the double just below
    [size - paddingStart - paddingEnd - thumb]. *)
Example binary64_endpoint_off_in_last_place :
  let sizes := Binary64.sizes_457_300 in
  let maxScroll := (Binary64.content sizes - Binary64.viewport sizes)%float in
  let atEnd := Binary64.interpolateThumbOffsetFromScroll maxScroll sizes in
  let expected :=
    (Binary64.size (Binary64.scrollbar sizes) - Binary64.paddingStart (Binary64.scrollbar sizes)
     - Binary64.paddingEnd (Binary64.scrollbar sizes) - Binary64.thumb sizes)%float in
  PrimFloat.eqb maxScroll 157 = true
  /\ PrimFloat.eqb atEnd expected = false
  /\ PrimFloat.eqb (PrimFloat.next_up atEnd) expected = true
  /\ PrimFloat.eqb (Binary64.interpolateThumbOffsetFromScroll 0 sizes) 0 = true.
Proof. repeat split; vm_compute; reflexivity. Qed.

(** On doubles the two ways the source subtracts ([size - paddingEnd -
    (thumb - pointerOffset)] for the pointer range,
    [size - (paddingStart + paddingEnd) - thumb] for the thumb range) can
    disagree about whether any room is left: here the pointer range is
    turned around while [maxThumbPos] is above 0, and the composed map
    decreases from pointer position 30 to 50. *)
Example binary64_narrow_range_inverts_order :
  let sizes := Binary64.sizes_narrow in
  let offset := 0x1.3333333333333p-2%float in
  PrimFloat.leb (Binary64.viewport sizes) (Binary64.content sizes) = true
  /\ PrimFloat.ltb (snd (Binary64.pointerRange offset sizes))
                   (fst (Binary64.pointerRange offset sizes)) = true
  /\ PrimFloat.ltb 0 (Binary64.maxThumbPos sizes) = true
  /\ PrimFloat.ltb (Binary64.thumbOffsetFromPointer 50 offset sizes)
                   (Binary64.thumbOffsetFromPointer 30 offset sizes) = true.
Proof. repeat split; vm_compute; reflexivity. Qed.

(** ** End to end: viewport 400, content 1000, track 100, no padding *)

(** C9, as stated, fails: the ratio is track over content, 100/1000 = 1/10
    and not 4/10; the thumb is 10 pixels long and not 40; a pointer move of
    +30 pixels moves the scroll position by 200 and not 300. *)
Lemma ratio_is_track_over_content :
  ratioEffect horizontal (context_of 1000 400)
  = [ThumbRatioChange (Fin (Q2Qc (1 # 10))); SetComputedStyle px100]
  /\ strict_eq (thumbRatio st_1000_400) (Fin (Q2Qc (4 # 10))) = false
  /\ getThumbSizePx (thumbRatio st_1000_400) (o_scrollbar drag_sizes) = ofZ 10
  /\ strict_eq (getThumbSizePx (thumbRatio st_1000_400) (o_scrollbar drag_sizes)) (ofZ 40)
     = false
  /\ (getScrollPositionFromPointer st_1000_400 (ofZ 35) drag_sizes
      - getScrollPositionFromPointer st_1000_400 (ofZ 5) drag_sizes)%js = ofZ 200
  /\ strict_eq (getScrollPositionFromPointer st_1000_400 (ofZ 35) drag_sizes
                - getScrollPositionFromPointer st_1000_400 (ofZ 5) drag_sizes)%js (ofZ 300)
     = false.
Proof. repeat split; vm_compute; js_eq. Qed.

Lemma getScrollPositionFromPointer_1000_400 (p : Qc) :
  getScrollPositionFromPointer st_1000_400 (Fin p) drag_sizes
  = Fin ((Q2Qc 1000 - Q2Qc 400) / (Q2Qc 100 - 0 - 0 - Q2Qc 10) * (p - (0 + Q2Qc 5))).
Proof.
  assert (E1 : getThumbSizePx (thumbRatio st_1000_400) (o_scrollbar drag_sizes)
               = Fin (Q2Qc 10)) by (vm_compute; js_eq).
  assert (E2 : or_else (pointerOffsetRef st_1000_400) (Fin (Q2Qc 10) / ofZ 2)%js
               = Fin (Q2Qc 5)) by (vm_compute; js_eq).
  unfold getScrollPositionFromPointer. rewrite E1, E2.
  change (withThumb drag_sizes (Fin (Q2Qc 10)))
    with (finSizes (Q2Qc 10) (Q2Qc 1000) (Q2Qc 400) (Q2Qc 100) 0 0).
  apply scrollFromPointer_linear; intro E; vm_compute in E; discriminate E.
Qed.

(** C9, amended: with viewport extent 400, content extent 1000, track size
    100 and no padding, the recomputed ratio is 1/10 (track over content),
    the thumb is 10 pixels long (10% of the track), and with no recorded
    pointer offset a pointer move of +30 pixels raises the computed scroll
    position by exactly [30 / (100 - 10) * 600 = 200], from every pointer
    position. *)
Theorem end_to_end_1000_400 :
  ratioEffect horizontal (context_of 1000 400)
  = [ThumbRatioChange (Fin (Q2Qc (1 # 10))); SetComputedStyle px100]
  /\ thumbRatio st_1000_400 = Fin (Q2Qc (1 # 10))
  /\ pointerOffsetRef st_1000_400 = zero
  /\ thumbSizePct st_1000_400 = ofZ 10
  /\ X_getScrollbarSizes (context_of 1000 400) (Some px100) = o_scrollbar drag_sizes
  /\ getThumbSizePx (thumbRatio st_1000_400) (o_scrollbar drag_sizes) = ofZ 10
  /\ (forall p : Qc,
        X_onDragScroll (context_of 1000 400) (Some px100) st_1000_400
          {| x := Fin p; y := zero |}
        = [SetScrollLeft (getScrollPositionFromPointer st_1000_400 (Fin p) drag_sizes)])
  /\ (forall p : Qc,
        (getScrollPositionFromPointer st_1000_400 (Fin (p + Q2Qc 30)) drag_sizes
         - getScrollPositionFromPointer st_1000_400 (Fin p) drag_sizes)%js
        = Fin (Q2Qc 30 / (Q2Qc 100 - Q2Qc 10) * Q2Qc 600))
  /\ Fin (Q2Qc 30 / (Q2Qc 100 - Q2Qc 10) * Q2Qc 600) = ofZ 200.
Proof.
  split; [ vm_compute; js_eq | ].
  split; [ vm_compute; js_eq | ].
  split; [ reflexivity | ].
  split; [ vm_compute; js_eq | ].
  split; [ vm_compute; js_eq | ].
  split; [ vm_compute; js_eq | ].
  split; [ intro p; vm_compute; js_eq | ].
  split; [ | vm_compute; js_eq ].
  intro p. rewrite !getScrollPositionFromPointer_1000_400.
  set (k := (Q2Qc 1000 - Q2Qc 400) / (Q2Qc 100 - 0 - 0 - Q2Qc 10)).
  change (Fin (k * (p + Q2Qc 30 - (0 + Q2Qc 5))) - Fin (k * (p - (0 + Q2Qc 5))))%js
    with (Fin (k * (p + Q2Qc 30 - (0 + Q2Qc 5)) - k * (p - (0 + Q2Qc 5)))).
  f_equal.
  transitivity (k * Q2Qc 30); [ ring | ].
  apply Qc_is_canon. reflexivity.
Qed.

(** * Further properties of the components *)

(** ** Orientation *)

(** Mounting a scrollbar switches on the overflow of exactly the axis that
    [ScrollAreaScrollbarVisible] renders for the same [orientation]
    property, the absent property (vertical) included; the other axis is
    left as it was. *)
Theorem enable_matches_rendered_axis
    (props_orientation : option string) (a : orientation) (st : EnabledState) :
  ScrollAreaScrollbarVisible_axis props_orientation = Some a ->
  let st' := ScrollAreaScrollbar_enable props_orientation true st in
  ScrollAreaScrollbarVisible_axis None = Some vertical
  /\ match a with
     | horizontal =>
         overflowOf (isScrollbarXEnabled st') = "scroll"%string
         /\ isScrollbarYEnabled st' = isScrollbarYEnabled st
     | vertical =>
         overflowOf (isScrollbarYEnabled st') = "scroll"%string
         /\ isScrollbarXEnabled st' = isScrollbarXEnabled st
     end.
Proof.
  intros H st'. split; [ reflexivity | ].
  unfold st', ScrollAreaScrollbar_enable, ScrollAreaScrollbarVisible_axis, isHorizontal in *.
  destruct props_orientation as [o | ].
  - destruct (String.eqb o "horizontal") eqn:Eh.
    + injection H as <-. split; reflexivity.
    + destruct (String.eqb o "vertical"); [ | discriminate H ].
      injection H as <-. split; reflexivity.
  - simpl in H. injection H as <-. split; reflexivity.
Qed.

Lemma enable_matches_rendered_axis_witness :
  let st := {| isScrollbarXEnabled := false; isScrollbarYEnabled := false |} in
  let st' := ScrollAreaScrollbar_enable (Some "horizontal"%string) true st in
  ScrollAreaScrollbarVisible_axis None = Some vertical
  /\ overflowOf (isScrollbarXEnabled st') = "scroll"%string
  /\ isScrollbarYEnabled st' = isScrollbarYEnabled st.
Proof.
  exact (enable_matches_rendered_axis (Some "horizontal"%string) horizontal
           {| isScrollbarXEnabled := false; isScrollbarYEnabled := false |} eq_refl).
Defined.

(** ** The overflow-triggered policy *)

Lemma Qcltb_shift (a b : Qc) : Qcltb a b = Qcltb 0 (b - a).
Proof.
  destruct (Qcltb a b) eqn:E1, (Qcltb 0 (b - a)) eqn:E2; try reflexivity.
  - apply Qcltb_iff in E1. apply (proj1 (Qclt_minus_iff a b)) in E1.
    apply Qcltb_iff in E1. unfold Qcminus in E2. congruence.
  - apply Qcltb_iff in E2. apply (proj2 (Qclt_minus_iff a b)) in E2.
    apply Qcltb_iff in E2. congruence.
Qed.

(** With finite extents, the resize callback of the "auto" policy makes
    the scrollbar visible exactly when the [maxScrollPos] its wheel handler
    computes for the same axis is positive; neither the previous visibility
    nor the other axis matter. *)
Theorem auto_visible_iff_scrollable
    (props_orientation : option string) (context : ScrollAreaContextValue)
    (vp : HTMLDivElement) (visible : bool) (sw sh ow oh : Qc) :
  ctx_viewport context = Some vp ->
  scrollWidth vp = Fin sw -> scrollHeight vp = Fin sh ->
  offsetWidth vp = Fin ow -> offsetHeight vp = Fin oh ->
  Auto_onResize props_orientation context visible
  = lt zero (wheelMaxScrollPos (axisOf props_orientation) vp).
Proof.
  intros Hv Hsw Hsh How Hoh. unfold Auto_onResize, axisOf. rewrite Hv.
  destruct (isHorizontal props_orientation); simpl wheelMaxScrollPos;
    rewrite ?Hsw, ?Hsh, ?How, ?Hoh; apply Qcltb_shift.
Qed.

Lemma auto_visible_iff_scrollable_witness :
  Auto_onResize (Some "horizontal"%string) wheel_context false
  = lt zero (wheelMaxScrollPos (axisOf (Some "horizontal"%string)) wheel_viewport).
Proof.
  exact (auto_visible_iff_scrollable (Some "horizontal"%string) wheel_context
           wheel_viewport false _ _ _ _ eq_refl eq_refl eq_refl eq_refl eq_refl).
Defined.

(** ** The hover policy's listeners *)

Lemma filter_all_true {A : Type} (f : A -> bool) (l : list A) :
  (forall a, In a l -> f a = true) -> filter f l = l.
Proof.
  induction l as [ | a l IH]; intro H; [ reflexivity | ].
  simpl. rewrite (H a (or_introl eq_refl)). f_equal.
  apply IH. intros b Hb. apply H. right. exact Hb.
Qed.

Lemma existsb_all_false {A : Type} (f : A -> bool) (l : list A) :
  (forall a, In a l -> f a = false) -> existsb f l = false.
Proof.
  induction l as [ | a l IH]; intro H; [ reflexivity | ].
  simpl. rewrite (H a (or_introl eq_refl)). simpl.
  apply IH. intros b Hb. apply H. right. exact Hb.
Qed.

Lemma listener_eqb_refl (l : string * handler) : listener_eqb l l = true.
Proof.
  destruct l as [t [n | n]]; unfold listener_eqb; simpl;
    rewrite String.eqb_refl, Nat.eqb_refl; reflexivity.
Qed.

Lemma listener_eqb_eq (a b : string * handler) : listener_eqb a b = true -> a = b.
Proof.
  destruct a as [s [m | m]], b as [t [n | n]]; unfold listener_eqb; simpl; intro H;
    apply andb_true_iff in H; destruct H as [H1 H2]; try discriminate;
    apply String.eqb_eq in H1; apply Nat.eqb_eq in H2; subst; reflexivity.
Qed.

Lemma listener_eqb_enter (a b : nat) :
  listener_eqb (enterListener a) (enterListener b) = Nat.eqb a b.
Proof.
  unfold listener_eqb, enterListener. cbn [fst snd handler_eqb].
  rewrite String.eqb_refl. reflexivity.
Qed.

Lemma In_addEventListener (type : string) (h : handler) (t : EventTarget) :
  In (type, h) (addEventListener type h t).
Proof.
  unfold addEventListener. destruct (existsb (listener_eqb (type, h)) t) eqn:E.
  - apply existsb_exists in E. destruct E as [l [Hl El]].
    apply listener_eqb_eq in El. subst l. exact Hl.
  - apply in_or_app. right. left. reflexivity.
Qed.

Lemma In_addEventListener_old (type : string) (h : handler) (t : EventTarget)
    (l : string * handler) :
  In l t -> In l (addEventListener type h t).
Proof.
  intro H. unfold addEventListener.
  destruct (existsb (listener_eqb (type, h)) t); [ exact H | ].
  apply in_or_app. left. exact H.
Qed.

Lemma In_removeEventListener (type : string) (h : handler) (t : EventTarget)
    (l : string * handler) :
  In l (removeEventListener type h t) <-> In l t /\ l <> (type, h).
Proof.
  unfold removeEventListener. rewrite filter_In. split; intros [H1 H2]; split; try exact H1.
  - intro E. subst l. rewrite listener_eqb_refl in H2. discriminate H2.
  - destruct (listener_eqb (type, h) l) eqn:E; [ | reflexivity ].
    apply listener_eqb_eq in E. exfalso. apply H2. symmetry. exact E.
Qed.

(** The cleanup of the hover effect takes the [pointerleave] listener of
    its run off the scroll area but leaves the [pointerenter] listener it
    registered in place (it asks for the removal of a [mouseover] listener);
    every listener that was there before the run is still there. *)
Theorem hover_cleanup_keeps_pointerenter
    (context : ScrollAreaContextValue) (t t' : EventTarget) (run : nat) :
  Hover_effect context (Some t) run = Some t' ->
  In (enterListener run) t' /\ In (leaveListener run) t'
  /\ In (enterListener run) (Hover_cleanup run t')
  /\ existsb (listener_eqb (leaveListener run)) (Hover_cleanup run t') = false
  /\ (forall l, In l t -> l <> leaveListener run -> fst l <> "mouseover"%string ->
                In l (Hover_cleanup run t')).
Proof.
  unfold Hover_effect. destruct (ctx_viewport context); [ | discriminate ].
  intro H. injection H as <-.
  assert (I1 : In (enterListener run)
                 (addEventListener "pointerleave" (handlePointerLeave run)
                    (addEventListener "pointerenter" (handlePointerEnter run) t)))
    by (apply In_addEventListener_old, In_addEventListener).
  split; [ exact I1 | ]. split; [ apply In_addEventListener | ].
  unfold Hover_cleanup. split; [ | split ].
  - apply In_removeEventListener. split; [ | discriminate ].
    apply In_removeEventListener. split; [ exact I1 | discriminate ].
  - apply existsb_all_false. intros l Hl.
    apply In_removeEventListener in Hl. destruct Hl as [_ Hl].
    destruct (listener_eqb (leaveListener run) l) eqn:E; [ | reflexivity ].
    apply listener_eqb_eq in E. exfalso. apply Hl. symmetry. exact E.
  - intros l Hl Hne Hmo. apply In_removeEventListener. split; [ | exact Hne ].
    apply In_removeEventListener. split.
    + apply In_addEventListener_old, In_addEventListener_old. exact Hl.
    + intro E. apply Hmo. rewrite E. reflexivity.
Qed.

Lemma hover_cleanup_keeps_pointerenter_witness :
  let t' := [enterListener 3; leaveListener 3] in
  In (enterListener 3) t' /\ In (leaveListener 3) t'
  /\ In (enterListener 3) (Hover_cleanup 3 t')
  /\ existsb (listener_eqb (leaveListener 3)) (Hover_cleanup 3 t') = false
  /\ (forall l, In l [] -> l <> leaveListener 3 -> fst l <> "mouseover"%string ->
                In l (Hover_cleanup 3 t')).
Proof.
  exact (hover_cleanup_keeps_pointerenter wheel_context [] _ 3 eq_refl).
Defined.

Lemma Hover_after_shape (n : nat) :
  Hover_after n = map enterListener (seq 0 (S n)) ++ [leaveListener n].
Proof.
  induction n as [ | n IH]; [ reflexivity | ].
  cbn [Hover_after]. unfold Hover_rerun, Hover_cleanup. rewrite IH.
  remember (map enterListener (seq 0 (S n))) as enters eqn:Heq.
  assert (Hin : forall l, In l enters -> exists i, (i < S n)%nat /\ l = enterListener i).
  { intros l Hl. rewrite Heq in Hl. apply in_map_iff in Hl. destruct Hl as [i [<- Hi]].
    apply in_seq in Hi. exists i. split; [ apply Hi | reflexivity ]. }
  assert (R1 : removeEventListener "mouseover" (handlePointerEnter n)
                 (enters ++ [leaveListener n]) = enters ++ [leaveListener n]).
  { apply filter_all_true. intros l Hl. apply in_app_or in Hl.
    destruct Hl as [Hl | [<- | []]]; [ | reflexivity ].
    destruct (Hin l Hl) as [i [_ ->]]. reflexivity. }
  rewrite R1.
  assert (R2 : removeEventListener "pointerleave" (handlePointerLeave n)
                 (enters ++ [leaveListener n]) = enters).
  { unfold removeEventListener. rewrite filter_app. cbn [filter].
    replace (listener_eqb ("pointerleave"%string, handlePointerLeave n) (leaveListener n))
      with true by (symmetry; apply listener_eqb_refl).
    cbn [negb]. rewrite app_nil_r. apply filter_all_true. intros l Hl.
    destruct (Hin l Hl) as [i [_ ->]]. reflexivity. }
  rewrite R2.
  assert (A1 : addEventListener "pointerenter" (handlePointerEnter (S n)) enters
               = enters ++ [enterListener (S n)]).
  { unfold addEventListener. rewrite existsb_all_false; [ reflexivity | ].
    intros l Hl. destruct (Hin l Hl) as [i [Hi ->]].
    change (listener_eqb ("pointerenter"%string, handlePointerEnter (S n)) (enterListener i))
      with (listener_eqb (enterListener (S n)) (enterListener i)).
    rewrite listener_eqb_enter. apply Nat.eqb_neq.
    intro E. subst i. exact (Nat.lt_irrefl _ Hi). }
  rewrite A1.
  assert (A2 : addEventListener "pointerleave" (handlePointerLeave (S n))
                 (enters ++ [enterListener (S n)])
               = (enters ++ [enterListener (S n)]) ++ [leaveListener (S n)]).
  { unfold addEventListener. rewrite existsb_all_false; [ reflexivity | ].
    intros l Hl. apply in_app_or in Hl. destruct Hl as [Hl | [<- | []]]; [ | reflexivity ].
    destruct (Hin l Hl) as [i [_ ->]]. reflexivity. }
  rewrite A2. f_equal. rewrite Heq.
  rewrite (seq_S (S n) 0). rewrite map_app. reflexivity.
Qed.

(** Each re-run of the hover effect leaves one more [pointerenter]
    listener on the scroll area: after run 0 and [n] re-runs a
    [pointerenter] event reaches the [handlePointerEnter] closures of all
    [n + 1] runs, while a [pointerleave] event reaches the closure of the
    last run only. *)
Theorem hover_reruns_accumulate_pointerenter (n : nat) :
  listenersFor "pointerenter" (Hover_after n) = map handlePointerEnter (seq 0 (S n))
  /\ listenersFor "pointerleave" (Hover_after n) = [handlePointerLeave n]
  /\ List.length (Hover_after n) = (n + 2)%nat.
Proof.
  rewrite Hover_after_shape. unfold listenersFor.
  assert (F1 : filter (fun l : string * handler => String.eqb (fst l) "pointerenter")
                 (map enterListener (seq 0 (S n))) = map enterListener (seq 0 (S n))).
  { apply filter_all_true. intros l Hl. apply in_map_iff in Hl.
    destruct Hl as [i [<- _]]. reflexivity. }
  assert (F2 : filter (fun l : string * handler => String.eqb (fst l) "pointerleave")
                 (map enterListener (seq 0 (S n))) = []).
  { clear F1. induction (seq 0 (S n)) as [ | i l IH]; [ reflexivity | exact IH ]. }
  rewrite !filter_app, F1, F2. simpl filter. split; [ | split ].
  - rewrite app_nil_r, map_map. reflexivity.
  - reflexivity.
  - rewrite List.length_app, List.length_map, List.length_seq.
    cbn [List.length]. rewrite (Nat.add_comm n 2), (Nat.add_comm (S n) 1). reflexivity.
Qed.

(** ** The activity machine over sequences of events *)

(** While the pointer is over the scrollbar nothing but its leaving ends
    the interaction: from [interacting], every sequence of events without
    [SCROLLBAR_POINTER_LEAVE] (scrolls, a late [HIDE] or [SCROLL_END]
    timer, further pointer-enters) ends in [interacting]. *)
Theorem interacting_until_pointer_leave (es : list event) :
  existsb is_leave es = false ->
  run machine interacting es = interacting.
Proof.
  unfold run. induction es as [ | e es IH]; intro H; [ reflexivity | ].
  simpl in H. apply orb_false_iff in H. destruct H as [He Hes].
  simpl. destruct e; try discriminate He; exact (IH Hes).
Qed.

Lemma interacting_until_pointer_leave_witness :
  run machine interacting [SCROLL; HIDE; SCROLL_END; SCROLLBAR_POINTER_ENTER; SCROLL]
  = interacting.
Proof.
  exact (interacting_until_pointer_leave
           [SCROLL; HIDE; SCROLL_END; SCROLLBAR_POINTER_ENTER; SCROLL] eq_refl).
Defined.

Lemma send_keeps_present (s : state) (e : event) :
  is_hide e = false ->
  ScrollAreaScrollbarScroll_present false s = true ->
  ScrollAreaScrollbarScroll_present false (send machine s e) = true.
Proof. destruct s, e; simpl; intros; try discriminate; reflexivity. Qed.

(** A scrollbar of the "scroll" policy that is present stays present
    through every sequence of events that has no [HIDE] in it: only the hide
    timer takes it away. *)
Theorem present_until_hide (forceMount : bool) (s : state) (es : list event) :
  existsb is_hide es = false ->
  ScrollAreaScrollbarScroll_present forceMount s = true ->
  ScrollAreaScrollbarScroll_present forceMount (run machine s es) = true.
Proof.
  destruct forceMount; [ reflexivity | ].
  unfold run. revert s. induction es as [ | e es IH]; intros s H P; [ exact P | ].
  simpl in H. apply orb_false_iff in H. destruct H as [He Hes].
  simpl. apply IH; [ exact Hes | ]. apply send_keeps_present; assumption.
Qed.

Lemma present_until_hide_witness :
  ScrollAreaScrollbarScroll_present false
    (run machine scrolling [SCROLL_END; SCROLL; SCROLLBAR_POINTER_ENTER;
                            SCROLLBAR_POINTER_LEAVE]) = true.
Proof.
  exact (present_until_hide false scrolling
           [SCROLL_END; SCROLL; SCROLLBAR_POINTER_ENTER; SCROLLBAR_POINTER_LEAVE]
           eq_refl eq_refl).
Defined.

(** ** The scroll listener of the "scroll" policy *)

(** [handleScroll] remembers the offset of its own axis.  A scroll event
    that leaves that offset as it was (a scroll along the other axis) sends
    nothing, so the state is unchanged; one that changes it sends [SCROLL]
    and re-arms the scroll-end debounce, after which the scrollbar is present
    whatever the state was. *)
Theorem scroll_listener_reacts_to_own_axis
    (props_orientation : option string) (vp : HTMLDivElement)
    (prevScrollPos : number) (s : state) :
  let actions := fst (handleScroll props_orientation vp prevScrollPos) in
  let scrollPos := nativeOffset (axisOf props_orientation) vp in
  snd (handleScroll props_orientation vp prevScrollPos) = scrollPos
  /\ (strict_eq prevScrollPos scrollPos = true ->
      actions = [] /\ applyActions s actions = s)
  /\ (strict_eq prevScrollPos scrollPos = false ->
      actions = [Send SCROLL; DebounceScrollEnd]
      /\ applyActions s actions = send machine s SCROLL
      /\ ScrollAreaScrollbarScroll_present false (applyActions s actions) = true).
Proof.
  intros actions scrollPos.
  assert (E : scrollDirection props_orientation vp = scrollPos).
  { unfold scrollDirection, scrollPos, axisOf.
    destruct (isHorizontal props_orientation); reflexivity. }
  unfold actions, handleScroll. rewrite E. cbn [fst snd].
  split; [ reflexivity | ]. split; intro H; rewrite H; cbn [negb].
  - split; reflexivity.
  - split; [ reflexivity | ]. split; [ reflexivity | ].
    destruct s; reflexivity.
Qed.

(** ** Pointer handling of the scrollbar *)

Lemma Impl_run_moves (rect : ClientRect) (ms : list PointerEvent) (rest : list pointerInput) :
  Impl_run (Some rect) (map PointerMove ms ++ rest)
  = (fst (Impl_run (Some rect) rest),
     map (fun m => DragScroll (relativeTo rect m)) ms ++ snd (Impl_run (Some rect) rest)).
Proof.
  induction ms as [ | m ms IH].
  - simpl. destruct (Impl_run (Some rect) rest); reflexivity.
  - cbn [map app Impl_run Impl_step Impl_onPointerMove]. rewrite IH. reflexivity.
Qed.

(** Without a pointer-down of the main button nothing is dragged: starting
    with no rectangle recorded, a sequence of pointer events that has no
    main-button pointer-down (moves over the scrollbar, presses of other
    buttons, releases) never calls [onDragScroll], never captures the
    pointer and leaves no rectangle recorded. *)
Theorem no_drag_without_main_pointer_down (inputs : list pointerInput) :
  existsb isMainDown inputs = false ->
  fst (Impl_run None inputs) = None
  /\ drags (snd (Impl_run None inputs)) = []
  /\ forall id, In (SetPointerCapture id) (snd (Impl_run None inputs)) -> False.
Proof.
  induction inputs as [ | i inputs IH]; intro H.
  - simpl. repeat split. intros id [].
  - simpl in H. apply orb_false_iff in H. destruct H as [Hi Hrest].
    destruct (IH Hrest) as [I1 [I2 I3]].
    destruct i as [r ev | ev | ev]; cbn [Impl_run Impl_step].
    + unfold Impl_onPointerDown. simpl in Hi. rewrite Hi.
      destruct (Impl_run None inputs) as [final more]. simpl in *. auto.
    + unfold Impl_onPointerMove. cbn [handleDragScroll].
      destruct (Impl_run None inputs) as [final more]. simpl in *. auto.
    + unfold Impl_onPointerUp.
      destruct (Impl_run None inputs) as [final more]. simpl in *.
      split; [ exact I1 | ]. split; [ exact I2 | ].
      intros id [C | C]; [ discriminate C | exact (I3 id C) ].
Qed.

Lemma no_drag_without_main_pointer_down_witness :
  let inputs := [PointerMove (mainPointerAt 10 10);
                 PointerDown {| rect_left := zero; rect_top := zero |}
                   {| button := 2; pointerId := 1; clientX := zero; clientY := zero |};
                 PointerMove (mainPointerAt 20 10);
                 PointerUp (mainPointerAt 20 10)] in
  fst (Impl_run None inputs) = None
  /\ drags (snd (Impl_run None inputs)) = []
  /\ forall id, In (SetPointerCapture id) (snd (Impl_run None inputs)) -> False.
Proof.
  exact (no_drag_without_main_pointer_down
           [PointerMove (mainPointerAt 10 10);
            PointerDown {| rect_left := zero; rect_top := zero |}
              {| button := 2; pointerId := 1; clientX := zero; clientY := zero |};
            PointerMove (mainPointerAt 20 10);
            PointerUp (mainPointerAt 20 10)] eq_refl).
Defined.

(** A drag gesture: a main-button pointer-down, any number of moves, a
    pointer-up.  The pointer is captured once, the rectangle read at
    pointer-down is the one every position of the gesture is taken relative
    to (the pointer-down itself and each move give one [onDragScroll] call),
    the capture is released at the end and no rectangle stays recorded,
    whatever was recorded before. *)
Theorem drag_gesture_uses_rectangle_of_pointer_down
    (rectRef : option ClientRect) (rect : ClientRect)
    (down up : PointerEvent) (moves : list PointerEvent) :
  button down = MAIN_POINTER ->
  Impl_run rectRef (PointerDown rect down :: map PointerMove moves ++ [PointerUp up])
  = (None,
     SetPointerCapture (pointerId down)
       :: DragScroll (relativeTo rect down)
       :: map (fun m => DragScroll (relativeTo rect m)) moves
       ++ [ReleasePointerCapture (pointerId up)]).
Proof.
  intro H. cbn [Impl_run Impl_step]. unfold Impl_onPointerDown.
  rewrite H. cbn [Z.eqb MAIN_POINTER]. rewrite Impl_run_moves. reflexivity.
Qed.

Lemma drag_gesture_uses_rectangle_of_pointer_down_witness :
  let rect := {| rect_left := ofZ 5; rect_top := ofZ 7 |} in
  Impl_run None (PointerDown rect (mainPointerAt 30 9)
                   :: map PointerMove [mainPointerAt 40 9; mainPointerAt 55 9]
                   ++ [PointerUp (mainPointerAt 55 9)])
  = (None,
     SetPointerCapture (pointerId (mainPointerAt 30 9))
       :: DragScroll (relativeTo rect (mainPointerAt 30 9))
       :: map (fun m => DragScroll (relativeTo rect m))
            [mainPointerAt 40 9; mainPointerAt 55 9]
       ++ [ReleasePointerCapture (pointerId (mainPointerAt 55 9))]).
Proof.
  exact (drag_gesture_uses_rectangle_of_pointer_down None
           {| rect_left := ofZ 5; rect_top := ofZ 7 |}
           (mainPointerAt 30 9) (mainPointerAt 55 9)
           [mainPointerAt 40 9; mainPointerAt 55 9] eq_refl).
Defined.

(** ** More on the wheel handler *)

Lemma add_zero_r (n : number) : (n + zero)%js = n.
Proof.
  destruct n as [a | | | ]; try reflexivity.
  unfold add, zero. f_equal. apply Qcplus_0_r.
Qed.

Lemma no_number_between_zero_and_nonpositive (n m : number) :
  lt zero n = true -> lt n m = true -> le m zero = true -> False.
Proof.
  destruct n as [a | | | ], m as [b | | | ]; simpl; intros H1 H2 H3; try discriminate.
  apply Qcltb_iff in H1. apply Qcltb_iff in H2. apply le_Fin in H3.
  exact (Qcle_not_lt _ _ H3 (Qclt_trans _ _ _ H1 H2)).
Qed.

(** Where the content does not overflow the viewport on the axis
    ([maxScrollPos <= 0]), a wheel event over the scrollbar never prevents
    the default, whatever the delta and the current offset: the page keeps
    scrolling and the handler only writes the offset. *)
Theorem wheel_never_prevents_without_overflow
    (o : orientation) (context : ScrollAreaContextValue)
    (vp : HTMLDivElement) (ev : WheelEvent) :
  ctx_viewport context = Some vp ->
  le (wheelMaxScrollPos o vp) zero = true ->
  handleWheel o context true ev = [writeScroll o (wheelScrollPos o vp ev)].
Proof.
  intros Hv Hm. rewrite (handleWheel_unfold o context vp ev Hv).
  unfold preventPageScrollOnWheel, gt.
  destruct (lt zero (wheelScrollPos o vp ev)) eqn:E1; [ | reflexivity ].
  destruct (lt (wheelScrollPos o vp ev) (wheelMaxScrollPos o vp)) eqn:E2; [ | reflexivity ].
  exfalso. exact (no_number_between_zero_and_nonpositive _ _ E1 E2 Hm).
Qed.

Lemma wheel_never_prevents_without_overflow_witness :
  let ev := {| deltaX := ofZ 50; deltaY := ofZ 50 |} in
  handleWheel horizontal (context_of 0 0) true ev
  = [writeScroll horizontal
       (wheelScrollPos horizontal
          {| scrollLeft := zero; scrollTop := zero;
             scrollWidth := ofZ 0; scrollHeight := ofZ 0;
             offsetWidth := ofZ 0; offsetHeight := ofZ 0 |} ev)].
Proof.
  exact (wheel_never_prevents_without_overflow horizontal (context_of 0 0) _
           {| deltaX := ofZ 50; deltaY := ofZ 50 |} eq_refl eq_refl).
Defined.

(** A wheel event that carries no delta for the axis of the scrollbar it is
    over (a vertical wheel over the horizontal scrollbar) still prevents the
    default when that axis is scrolled strictly between its ends, and writes
    the offset back unchanged: the page does not scroll and neither does the
    area along that axis. *)
Theorem wheel_without_delta_still_prevents_default
    (o : orientation) (context : ScrollAreaContextValue)
    (vp : HTMLDivElement) (ev : WheelEvent) :
  ctx_viewport context = Some vp ->
  wheelDelta o ev = zero ->
  lt zero (nativeOffset o vp) = true ->
  lt (nativeOffset o vp) (wheelMaxScrollPos o vp) = true ->
  handleWheel o context true ev = [PreventDefault; writeScroll o (nativeOffset o vp)].
Proof.
  intros Hv Hd H1 H2. rewrite (handleWheel_unfold o context vp ev Hv).
  assert (E : wheelScrollPos o vp ev = nativeOffset o vp).
  { destruct o; simpl in *; rewrite Hd; apply add_zero_r. }
  rewrite E. unfold preventPageScrollOnWheel, gt. rewrite H1, H2. reflexivity.
Qed.

Lemma wheel_without_delta_still_prevents_default_witness :
  handleWheel horizontal wheel_context true {| deltaX := zero; deltaY := ofZ 120 |}
  = [PreventDefault; writeScroll horizontal (nativeOffset horizontal wheel_viewport)].
Proof.
  exact (wheel_without_delta_still_prevents_default horizontal wheel_context wheel_viewport
           {| deltaX := zero; deltaY := ofZ 120 |} eq_refl eq_refl eq_refl eq_refl).
Defined.

(** ** A missing viewport *)

(** With no viewport element every handler that reads or writes the scroll
    offset is a no-op on both axes: the wheel handler, the drag handler and
    the thumb-position handler have no effect, the "auto" policy keeps its
    visibility, the hover effect registers nothing, and the content size
    used for the ratio is 0. *)
Theorem handlers_without_viewport
    (context : ScrollAreaContextValue) (o : orientation)
    (ev : WheelEvent) (isScrollbarWheel : bool)
    (computedStyle : option CSSStyleDeclaration) (st : VisibleState)
    (pointerPosition : Point) (thumb visible : bool)
    (props_orientation : option string) (scrollArea : option EventTarget) (run : nat) :
  ctx_viewport context = None ->
  handleWheel o context isScrollbarWheel ev = []
  /\ X_onDragScroll context computedStyle st pointerPosition = []
  /\ Y_onDragScroll context computedStyle st pointerPosition = []
  /\ X_onThumbPositionChange context computedStyle st thumb = []
  /\ Y_onThumbPositionChange context computedStyle st thumb = []
  /\ Auto_onResize props_orientation context visible = visible
  /\ Hover_effect context scrollArea run = None
  /\ contentSize o context = zero.
Proof.
  intro H. repeat split.
  - destruct isScrollbarWheel, o; simpl; try reflexivity;
      [ unfold X_onWheelScroll | unfold Y_onWheelScroll ]; rewrite H; reflexivity.
  - unfold X_onDragScroll. rewrite H. reflexivity.
  - unfold Y_onDragScroll. rewrite H. reflexivity.
  - unfold X_onThumbPositionChange. rewrite H. reflexivity.
  - unfold Y_onThumbPositionChange. rewrite H. reflexivity.
  - unfold Auto_onResize. rewrite H. reflexivity.
  - unfold Hover_effect. rewrite H. reflexivity.
  - destruct o; simpl; [ unfold contentWidth | unfold contentHeight ];
      rewrite H; reflexivity.
Qed.

Lemma handlers_without_viewport_witness :
  handleWheel horizontal detached_context true {| deltaX := ofZ 50; deltaY := zero |} = []
  /\ X_onDragScroll detached_context None VisibleState_init {| x := ofZ 3; y := zero |} = []
  /\ Y_onDragScroll detached_context None VisibleState_init {| x := ofZ 3; y := zero |} = []
  /\ X_onThumbPositionChange detached_context None VisibleState_init true = []
  /\ Y_onThumbPositionChange detached_context None VisibleState_init true = []
  /\ Auto_onResize None detached_context true = true
  /\ Hover_effect detached_context (Some []) 0 = None
  /\ contentSize horizontal detached_context = zero.
Proof.
  exact (handlers_without_viewport detached_context horizontal
           {| deltaX := ofZ 50; deltaY := zero |} true None VisibleState_init
           {| x := ofZ 3; y := zero |} true true None (Some []) 0 eq_refl).
Defined.

(** ** The thumb and the pointer on finite sizes *)

Lemma Qcleb_iff (a b : Qc) : Qcleb a b = true <-> a <= b.
Proof.
  unfold Qcleb. rewrite Qcle_alt.
  destruct (a ?= b); split; intro H; try reflexivity; try discriminate.
  exfalso. apply H. reflexivity.
Qed.

Lemma Qcinv_pos (a : Qc) : 0 < a -> 0 < / a.
Proof.
  unfold Qclt, Qcinv. cbn [this Q2Qc]. rewrite !Qred_correct.
  apply Qinv_lt_0_compat.
Qed.

Lemma Qcdiv_pos (a b : Qc) : 0 < a -> 0 < b -> 0 < a / b.
Proof.
  intros Ha Hb. unfold Qcdiv. apply Qcinv_pos in Hb. qc_to_q. nra.
Qed.

Lemma Qcdiv_unit_interval (s M : Qc) :
  0 < M -> 0 <= s -> s <= M -> 0 <= s / M /\ s / M <= 1.
Proof.
  intros HM H0 H1. assert (HI := Qcinv_pos M HM).
  assert (E : M * / M = 1) by (apply Qcmult_inv_r; intro Z; subst; exact (Qclt_not_eq _ _ HM eq_refl)).
  unfold Qcdiv. split.
  - qc_to_q. nra.
  - rewrite <- E. apply Qcmult_le_compat_r; [ exact H1 | apply Qclt_le_weak; exact HI ].
Qed.

Section ThumbAndPointer.

Variables r c v sz ps pe : Qc.

(** Pixel size of the thumb for ratio [r]. *)
Local Abbreviation thumbPx := ((sz - (ps + pe)) * r).

Local Abbreviation sizes := (finOmit c v sz ps pe).



Lemma getThumbOffsetFromScroll_fin (offset scrollPos : number) :
  getThumbOffsetFromScroll {| pointerOffsetRef := offset; thumbRatio := Fin r |} scrollPos sizes
  = interpolateThumbOffsetFromScroll scrollPos (finSizes thumbPx c v sz ps pe).
Proof.
  unfold getThumbOffsetFromScroll. cbn [thumbRatio o_scrollbar finOmit].
  rewrite getThumbSizePx_Fin. reflexivity.
Qed.



End ThumbAndPointer.

(** For a ratio between 0 and 1, a padding that fits the scrollbar and a
    scroll position between 0 and [maxScroll > 0], the thumb lies within the
    track: its offset is not negative and offset plus thumb length does not
    exceed the scrollbar size minus the padding. *)
Theorem thumb_stays_within_track (r s c v sz ps pe : Qc) (offset : number) :
  0 <= r -> r <= 1 -> ps + pe <= sz -> v < c -> 0 <= s -> s <= c - v ->
  let st := {| pointerOffsetRef := offset; thumbRatio := Fin r |} in
  let sizes := finOmit c v sz ps pe in
  let thumbOffset := getThumbOffsetFromScroll st (Fin s) sizes in
  let thumbSizePx := getThumbSizePx (thumbRatio st) (o_scrollbar sizes) in
  le zero thumbOffset = true
  /\ le (thumbOffset + thumbSizePx)%js (Fin (sz - (ps + pe))) = true.
Proof.
  intros Hr0 Hr1 Hpad Hcv Hs0 Hs1 st sizes thumbOffset thumbSizePx.
  assert (ET : thumbSizePx = Fin ((sz - (ps + pe)) * r))
    by (unfold thumbSizePx, st, sizes; cbn [thumbRatio o_scrollbar finOmit];
        apply getThumbSizePx_Fin).
  assert (Hc : c <> v) by (intro E; subst; exact (Qclt_not_eq _ _ Hcv eq_refl)).
  assert (HM : 0 < c - v)
    by (unfold Qcminus; apply (proj1 (Qclt_minus_iff v c)); exact Hcv).
  unfold thumbOffset, st, sizes. rewrite getThumbOffsetFromScroll_fin, ET.
  set (S := sz - (ps + pe)) in *.
  destruct (Qc_eq_dec (sz - ps - pe - S * r) 0) as [E | N].
  - rewrite thumbOffsetFromScroll_degenerate by (right; exact E).
    split; [ apply le_Fin; apply Qcle_refl | ].
    change (zero + Fin (S * r))%js with (Fin (0 + S * r)). apply le_Fin.
    assert (ES : S * r = S).
    { transitivity (S - (sz - ps - pe - S * r)); [ unfold S; ring | ].
      rewrite E. ring. }
    rewrite ES, Qcplus_0_l. apply Qcle_refl.
  - rewrite thumbOffsetFromScroll_linear by assumption.
    destruct (Qcdiv_unit_interval s (c - v) HM Hs0 Hs1) as [K0 K1].
    set (k := s / (c - v)) in *.
    assert (Et : (sz - ps - pe - S * r) / (c - v) * s = (S * (1 - r)) * k).
    { unfold k, S. field. intro Z. apply Hc. apply Qc_diff_zero. exact Z. }
    rewrite Et.
    change (Fin (S * (1 - r) * k) + Fin (S * r))%js with (Fin (S * (1 - r) * k + S * r)).
    assert (HS : 0 <= S)
      by (unfold S, Qcminus; apply (proj1 (Qcle_minus_iff (ps + pe) sz)); exact Hpad).
    assert (HA : 0 <= S * (1 - r)) by (clear - Hr1 HS; qc_to_q; nra).
    assert (EA : S * (1 - r) * k + S * r = S - (S * (1 - r) - S * (1 - r) * k)) by ring.
    rewrite EA. set (A := S * (1 - r)) in *.
    clearbody k A S. clear - HA K0 K1.
    split; apply le_Fin; qc_to_q; nra.
Qed.

Lemma thumb_stays_within_track_witness :
  let st := {| pointerOffsetRef := zero; thumbRatio := Fin (Q2Qc (1 # 10)) |} in
  let sizes := finOmit (Q2Qc 1000) (Q2Qc 400) (Q2Qc 100) 0 0 in
  let thumbOffset := getThumbOffsetFromScroll st (Fin (Q2Qc 300)) sizes in
  let thumbSizePx := getThumbSizePx (thumbRatio st) (o_scrollbar sizes) in
  le zero thumbOffset = true
  /\ le (thumbOffset + thumbSizePx)%js (Fin (Q2Qc 100 - (0 + 0))) = true.
Proof.
  apply (thumb_stays_within_track (Q2Qc (1 # 10)) (Q2Qc 300)
           (Q2Qc 1000) (Q2Qc 400) (Q2Qc 100) 0 0 zero);
    vm_compute; congruence.
Defined.







(** [interpolateScrollPositionFromPointer] does not clamp: with
    [maxScroll > 0] and free room on the track, the scroll position it
    returns lies in [[0, maxScroll]] exactly when the pointer lies in
    [[minPointerPos, maxPointerPos]]; a pointer outside that range yields a
    scroll position outside the scroll range. *)
Theorem scroll_in_range_iff_pointer_in_range (p o th c v sz ps pe : Qc) :
  v < c -> 0 < sz - ps - pe - th ->
  let scrollPos :=
    interpolateScrollPositionFromPointer (Fin p) (Fin o) (finSizes th c v sz ps pe) in
  le zero scrollPos && le scrollPos (Fin (c - v))
  = Qcleb (ps + o) p && Qcleb p (sz - pe - (th - o)).
Proof.
  intros Hcv Hroom scrollPos.
  assert (Hc : c <> v) by (intro E; subst; exact (Qclt_not_eq _ _ Hcv eq_refl)).
  assert (Hr : sz - ps - pe - th <> 0)
    by (intro E; rewrite E in Hroom; exact (Qclt_not_eq _ _ Hroom eq_refl)).
  assert (HM : 0 < c - v)
    by (unfold Qcminus; apply (proj1 (Qclt_minus_iff v c)); exact Hcv).
  unfold scrollPos. rewrite scrollFromPointer_linear by assumption.
  assert (HK := Qcdiv_pos _ _ HM Hroom).
  assert (EM : c - v = (c - v) / (sz - ps - pe - th) * (sz - ps - pe - th))
    by (field; exact Hr).
  set (K := (c - v) / (sz - ps - pe - th)) in *.
  set (room := sz - ps - pe - th) in *.
  assert (Emax : sz - pe - (th - o) = ps + o + room) by (unfold room; ring).
  rewrite Emax, EM. clearbody K room. clear - HK.
  assert (B1 : le zero (Fin (K * (p - (ps + o)))) = Qcleb (ps + o) p).
  { destruct (Qcleb (ps + o) p) eqn:E.
    - apply le_Fin. apply Qcleb_iff in E. qc_to_q. nra.
    - destruct (le zero (Fin (K * (p - (ps + o))))) eqn:E'; [ | reflexivity ].
      apply le_Fin in E'. assert (C : ps + o <= p) by (qc_to_q; nra).
      apply Qcleb_iff in C. congruence. }
  assert (B2 : le (Fin (K * (p - (ps + o)))) (Fin (K * room)) = Qcleb p (ps + o + room)).
  { destruct (Qcleb p (ps + o + room)) eqn:E.
    - apply le_Fin. apply Qcleb_iff in E. qc_to_q. nra.
    - destruct (le (Fin (K * (p - (ps + o)))) (Fin (K * room))) eqn:E'; [ | reflexivity ].
      apply le_Fin in E'. assert (C : p <= ps + o + room) by (qc_to_q; nra).
      apply Qcleb_iff in C. congruence. }
  rewrite B1, B2. reflexivity.
Qed.

Lemma scroll_in_range_iff_pointer_in_range_witness :
  let scrollPos :=
    interpolateScrollPositionFromPointer (Fin (Q2Qc 120)) (Fin (Q2Qc 5))
      (finSizes (Q2Qc 10) (Q2Qc 1000) (Q2Qc 400) (Q2Qc 100) 0 0) in
  le zero scrollPos && le scrollPos (Fin (Q2Qc 1000 - Q2Qc 400))
  = Qcleb (0 + Q2Qc 5) (Q2Qc 120) && Qcleb (Q2Qc 120) (Q2Qc 100 - 0 - (Q2Qc 10 - Q2Qc 5)).
Proof.
  apply (scroll_in_range_iff_pointer_in_range (Q2Qc 120) (Q2Qc 5)
           (Q2Qc 10) (Q2Qc 1000) (Q2Qc 400) (Q2Qc 100) 0 0); reflexivity.
Defined.

(** A pointer 25 pixels past the end of its range asks for a scroll
    position past the end of the scroll range. *)
Example pointer_past_the_end :
  interpolateScrollPositionFromPointer (ofZ 120) (ofZ 5)
    (finSizes (Q2Qc 10) (Q2Qc 1000) (Q2Qc 400) (Q2Qc 100) 0 0)
  = Fin (Q2Qc (2300 # 3)).
Proof. vm_compute; js_eq. Qed.

(** ** Reading pixel lengths *)

Lemma digitChar_facts (d : nat) :
  isDigit d = true ->
  digitOf (digitChar d) = Some (Z.of_nat d)
  /\ forall rest, parseInt10 (String (digitChar d) rest)
                  = match digits None (String (digitChar d) rest) with
                    | Some n => ofZ n
                    | None => NaN
                    end.
Proof.
  intro H. unfold isDigit in H.
  do 10 (destruct d as [ | d];
         [ split; [ reflexivity | intro rest; unfold parseInt10; simpl;
                                  destruct (digits _ rest) as [[ | n | n] | ]; reflexivity ]
         | ]).
  discriminate H.
Qed.

Lemma digits_suffix (acc : option Z) (suffix : string) :
  startsWithDigit suffix = false -> digits acc suffix = acc.
Proof.
  destruct suffix as [ | c rest]; [ reflexivity | ].
  simpl. destruct (digitOf c); [ discriminate | reflexivity ].
Qed.

Lemma digits_digitString (ds : list nat) (a : Z) (suffix : string) :
  forallb isDigit ds = true ->
  startsWithDigit suffix = false ->
  digits (Some a) (digitString ds ++ suffix)
  = Some (fold_left (fun a d => (10 * a + Z.of_nat d)%Z) ds a).
Proof.
  intros Hds Hs. revert a. induction ds as [ | d ds IH]; intro a.
  - apply digits_suffix. exact Hs.
  - simpl in Hds. apply andb_true_iff in Hds. destruct Hds as [Hd Hds].
    cbn [digitString String.append digits].
    rewrite (proj1 (digitChar_facts d Hd)). cbn [fold_left]. apply IH. exact Hds.
Qed.

(** [toInt] reads the leading decimal digits and ignores what follows them:
    for a non-empty list of digits [ds] and a suffix that does not start
    with a digit (a unit such as [px], or a fraction such as [.5px]),
    [toInt(ds ++ suffix)] is the integer [ds] denotes. *)
Theorem toInt_reads_leading_digits (d : nat) (ds : list nat) (suffix : string) :
  forallb isDigit (d :: ds) = true ->
  startsWithDigit suffix = false ->
  toInt (Some (digitString (d :: ds) ++ suffix)%string) = ofZ (valueOf (d :: ds)).
Proof.
  intros Hds Hs. assert (Hall := Hds).
  simpl in Hds. apply andb_true_iff in Hds. destruct Hds as [Hd Hrest].
  cbn [digitString String.append toInt].
  rewrite (proj2 (digitChar_facts d Hd)).
  change (String (digitChar d) (digitString ds ++ suffix))
    with (digitString (d :: ds) ++ suffix)%string.
  assert (E : digits None (digitString (d :: ds) ++ suffix)
              = Some (valueOf (d :: ds))).
  { cbn [digitString String.append digits].
    rewrite (proj1 (digitChar_facts d Hd)).
    rewrite digits_digitString by assumption. reflexivity. }
  rewrite E. reflexivity.
Qed.

Lemma toInt_reads_leading_digits_witness :
  toInt (Some (digitString [1; 2; 3]%nat ++ ".5px")%string) = ofZ (valueOf [1; 2; 3]%nat).
Proof.
  exact (toInt_reads_leading_digits 1 [2; 3]%nat ".5px" eq_refl eq_refl).
Defined.

Example toInt_123_5px :
  (digitString [1; 2; 3]%nat ++ ".5px")%string = "123.5px"%string
  /\ valueOf [1; 2; 3]%nat = 123%Z.
Proof. split; reflexivity. Qed.

(** [toInt] gives 0 for an absent value and for the empty string, but
    [NaN], not 0, for a string that starts with anything other than white
    space, a sign or a digit (a keyword such as [auto]). *)
Theorem toInt_without_number (c : ascii) (rest : string) :
  startsNoNumber c = true ->
  toInt None = zero /\ toInt (Some EmptyString) = zero
  /\ toInt (Some (String c rest)) = NaN.
Proof.
  intro H. split; [ reflexivity | ]. split; [ reflexivity | ].
  unfold startsNoNumber in H. cbn [toInt]. unfold parseInt10.
  destruct c as [b0 b1 b2 b3 b4 b5 b6 b7].
  destruct b0, b1, b2, b3, b4, b5, b6, b7; try discriminate H; reflexivity.
Qed.

Lemma toInt_without_number_witness :
  toInt None = zero /\ toInt (Some EmptyString) = zero
  /\ toInt (Some "auto"%string) = NaN.
Proof.
  exact (toInt_without_number "a" "uto" eq_refl).
Defined.

(** ** The size of the ratio *)

Lemma Qcle_div_iff (a b M : Qc) : 0 < M -> (a / M <= b / M <-> a <= b).
Proof.
  intro HM. assert (HI := Qcinv_pos M HM). unfold Qcdiv. split; intro H.
  - exact (Qcmult_lt_0_le_reg_r _ _ _ HI H).
  - apply Qcmult_le_compat_r; [ exact H | apply Qclt_le_weak; exact HI ].
Qed.

Lemma Qcleb_div (a b M : Qc) : 0 < M -> Qcleb (a / M) (b / M) = Qcleb a b.
Proof.
  intro HM. destruct (Qcleb a b) eqn:E.
  - apply Qcleb_iff. apply Qcle_div_iff; [ exact HM | ]. apply Qcleb_iff. exact E.
  - destruct (Qcleb (a / M) (b / M)) eqn:E'; [ | reflexivity ].
    apply Qcleb_iff in E'. apply Qcle_div_iff in E'; [ | exact HM ].
    apply Qcleb_iff in E'. congruence.
Qed.

(** With a finite track size and a finite content size above 0, the ratio
    handed to the consumer is their exact quotient; it is not clamped: it is
    at most 1 exactly when the track is no longer than the content, and at
    least 0 exactly when the track size is. *)
Theorem ratio_at_most_one_iff_track_fits
    (o : orientation) (context : ScrollAreaContextValue) (scrollbar : ScrollbarElement)
    (t cs : Qc) :
  scrollbarOf o context = Some scrollbar ->
  trackPixelSize o scrollbar = Fin t ->
  contentSize o context = Fin cs ->
  0 < cs ->
  ratioEffect o context
  = [ThumbRatioChange (Fin (t / cs)); SetComputedStyle (getComputedStyle scrollbar)]
  /\ Qcleb (t / cs) 1 = Qcleb t cs
  /\ Qcleb 0 (t / cs) = Qcleb 0 t.
Proof.
  intros Hs Ht Hc Hpos.
  assert (N : cs <> 0) by (intro E; subst; exact (Qclt_not_eq _ _ Hpos eq_refl)).
  split; [ | split ].
  - destruct o.
    + unfold ratioEffect, X_ratioEffect.
      change (ctx_scrollbarX context) with (scrollbarOf horizontal context). rewrite Hs.
      change (toInt (Some (width (getComputedStyle scrollbar))))
        with (trackPixelSize horizontal scrollbar).
      change (contentWidth context) with (contentSize horizontal context).
      rewrite Ht, Hc, (div_Fin t cs N). reflexivity.
    + unfold ratioEffect, Y_ratioEffect.
      change (ctx_scrollbarY context) with (scrollbarOf vertical context). rewrite Hs.
      change (toInt (Some (height (getComputedStyle scrollbar))))
        with (trackPixelSize vertical scrollbar).
      change (contentHeight context) with (contentSize vertical context).
      rewrite Ht, Hc, (div_Fin t cs N). reflexivity.
  - replace 1 with (cs / cs) by (field; exact N). apply Qcleb_div. exact Hpos.
  - replace 0 with (0 / cs) at 1 by (field; exact N). apply Qcleb_div. exact Hpos.
Qed.

Lemma ratio_at_most_one_iff_track_fits_witness :
  ratioEffect horizontal (context_of 50 400)
  = [ThumbRatioChange (Fin (Q2Qc 100 / Q2Qc 50)); SetComputedStyle (getComputedStyle track100)]
  /\ Qcleb (Q2Qc 100 / Q2Qc 50) 1 = Qcleb (Q2Qc 100) (Q2Qc 50)
  /\ Qcleb 0 (Q2Qc 100 / Q2Qc 50) = Qcleb 0 (Q2Qc 100).
Proof.
  apply (ratio_at_most_one_iff_track_fits horizontal (context_of 50 400) track100
           (Q2Qc 100) (Q2Qc 50)); reflexivity.
Defined.

(** A track of 100 pixels over a content of 50 gives ratio 2, a thumb twice
    as long as the track. *)
Example ratio_above_one :
  ratioEffect horizontal (context_of 50 400)
  = [ThumbRatioChange (ofZ 2); SetComputedStyle px100]
  /\ getThumbSizePx (ofZ 2) (o_scrollbar drag_sizes) = ofZ 200.
Proof. split; vm_compute; js_eq. Qed.
